(** * UAV deconfliction engine: data model, operations and their properties

  A shallow embedding of [src/drone.py], [src/utils.py], [src/conflict.py]
  and [src/deconfliction.py].

  Conventions of the embedding:
  - coordinates and the safety buffer are doubles, as the source annotates
    them ([x: float]), each held as the rational it stands for ([Q]): [abs]
    and the comparisons of [validate_coordinates] are exact on them; the
    arithmetic of the point test ([-], [**], [+], [<] on computed values)
    is the runtime's double arithmetic, an interface of [Runtime], with the
    [OverflowError] that [**] can raise;
  - a [datetime] is an instant on the integer time line ([Z]); a
    [timedelta] is a difference of instants;
  - a Python [dict] keyed by strings is a [gmap string _]; the time index,
    whose iteration order is the insertion order, is an association list;
  - a raised exception is a value of [exn]; a method that mutates [self]
    returns the new [self] next to its result, and keeps the mutations
    done before a raise;
  - logging (the logger calls and the [log_performance_metrics] decorator)
    touches nothing of the engine and is left out. *)

From Stdlib Require Import QArith Qabs Reals Qreals Lra.
From Stdlib Require Floats.
From stdpp Require Import gmap strings list.

(** ** Exceptions *)

Inductive ValueError_msg : Type :=
| NoWaypoints                      (* "A drone must have at least one waypoint" *)
| EndNotAfterStart                 (* "End time must be after start time" *)
| InvalidCoordinates (x y z : Q)   (* "Invalid coordinates for waypoint: ..." *)
| MaxDronesExceeded (max : Z).     (* "Maximum number of drones (...) exceeded" *)

Inductive exn : Type :=
| ValueError (msg : ValueError_msg)
| KeyError (key : string)
| LibraryError                     (* raised inside the k-d tree constructor *)
| OverflowError.                   (* (34, 'Numerical result out of range') *)

(** ** utils.py *)

Module utils.

Definition validate_coordinates (x y z : Q) : bool :=
  let MAX_XY := 10000%Q in
  let MAX_Z := 500%Q in
  Qle_bool (Qabs x) MAX_XY && Qle_bool (Qabs y) MAX_XY && Qle_bool (Qabs z) MAX_Z.

End utils.

(** ** drone.py *)

Module Waypoint.

Record t : Type := mk { x : Q; y : Q; z : Q; timestamp : Z }.

End Waypoint.

Module Drone.

(** The fields the class body assigns.  The class attribute
    [safety_buffer = 10.0] is never read by the engine and is left out. *)
Record t : Type := mk {
  id : string;
  waypoints : list Waypoint.t;
  start_time : Z;
  end_time : Z
}.

(** [Drone.__init__] as the class body writes it: four assignments. *)
Definition __init__ (id : string) (waypoints : list Waypoint.t)
    (start_time end_time : Z) : t :=
  mk id waypoints start_time end_time.

(** The [for waypoint in self.waypoints] loop of [__post_init__]. *)
Fixpoint check_waypoints (wps : list Waypoint.t) : exn + unit :=
  match wps with
  | [] => inr tt
  | waypoint :: rest =>
      if negb (utils.validate_coordinates
                 (Waypoint.x waypoint) (Waypoint.y waypoint) (Waypoint.z waypoint))
      then inl (ValueError (InvalidCoordinates
                 (Waypoint.x waypoint) (Waypoint.y waypoint) (Waypoint.z waypoint)))
      else check_waypoints rest
  end.

(** [Drone.__post_init__]. *)
Definition __post_init__ (self : t) : exn + unit :=
  match waypoints self with
  | [] => inl (ValueError NoWaypoints)
  | _ :: _ =>
      if (end_time self <=? start_time self)%Z
      then inl (ValueError EndNotAfterStart)
      else check_waypoints (waypoints self)
  end.

(** What a class body may define of the two methods [@dataclass] looks at. *)
Record class_body : Type := {
  body__init__ : option (string -> list Waypoint.t -> Z -> Z -> t);
  body__post_init__ : option (t -> exn + unit)
}.

(** The [__init__] that [@dataclass] would generate: assign the fields,
    then call [__post_init__] when the class has one. *)
Definition generated__init__ (post : option (t -> exn + unit))
    (id : string) (waypoints : list Waypoint.t) (start_time end_time : Z)
    : exn + t :=
  let self := mk id waypoints start_time end_time in
  match post with
  | None => inr self
  | Some post_init =>
      match post_init self with
      | inl e => inl e
      | inr _ => inr self
      end
  end.

(** [@dataclass]: [dataclasses._set_new_attribute] never overwrites an
    attribute that the class body already defines, so a class with its own
    [__init__] keeps it and the generated one is dropped. *)
Definition dataclass (c : class_body)
    : string -> list Waypoint.t -> Z -> Z -> exn + t :=
  match body__init__ c with
  | Some init => fun i w s e => inr (init i w s e)
  | None => generated__init__ (body__post_init__ c)
  end.

(** The class as written: both [__init__] and [__post_init__] are defined. *)
Definition body : class_body :=
  {| body__init__ := Some __init__; body__post_init__ := Some __post_init__ |}.

(** [Drone(id, waypoints, start_time, end_time)]. *)
Definition new : string -> list Waypoint.t -> Z -> Z -> exn + t :=
  dataclass body.

Definition get_time_range (self : t) : Z * Z := (start_time self, end_time self).

End Drone.

(** ** conflict.py *)

Module ConflictPoint.

Record t : Type := mk {
  drone_id : string;
  point : Q * Q * Q;
  type : string;      (* "spatial" or "temporal" *)
  severity : string   (* "low", "medium", "high" *)
}.

End ConflictPoint.

(** ** The Python runtime and the k-d tree library

    Three things the engine relies on are fixed by the interpreter, the C
    library and [scipy], not by the repository: the order in which
    [list(set(l))] enumerates a set of strings, whether [KDTree(points)]
    rejects its data (it then raises, here [LibraryError]), and the
    arithmetic of doubles.  Every property below holds for any such choice.

    [double] are the values a double computation can produce (infinities
    and NaN among them); [double_of q] is the double standing for [q].
    Subtraction and addition round and never raise; [x ** 2] rounds and
    raises [OverflowError] (here [None]) when the result is out of range;
    [x ** 0.5] rounds; [<] is exact, and no value is below itself. *)

Class Runtime : Type := {
  list_set : list string -> list string;
  list_set_NoDup : forall l, NoDup (list_set l);
  list_set_elem : forall l x, x ∈ list_set l <-> x ∈ l;
  KDTree_rejects : list (Q * Q * Q) -> bool;
  double : Type;
  double_of : Q -> double;
  double_sub : double -> double -> double;
  double_add : double -> double -> double;
  double_pow2 : double -> option double;
  double_pow_half : double -> double;
  double_lt : double -> double -> bool;
  double_lt_irrefl : forall x, double_lt x x = false
}.

(** ** deconfliction.py *)

(** A value stored in [conflict_cache]: the temporal check stores a
    boolean, the spatial check a list of conflict points. *)
Inductive cached : Type :=
| CBool (b : bool)
| CPoints (l : list ConflictPoint.t).

(** Python truthiness, as used by [if ...:] on a check's result. *)
Definition truthy (v : cached) : bool :=
  match v with
  | CBool b => b
  | CPoints [] => false
  | CPoints (_ :: _) => true
  end.

Record Performance : Type := mkPerformance {
  spatial_checks : nat;
  temporal_checks : nat;
  cache_hits : nat;
  total_drones : nat;
  validation_time : option Z   (* [None], then the timedelta whose [str] is stored *)
}.

Record ConflictEntry : Type := mkConflictEntry {
  conflicting_drone : string;
  conflict_locations : cached;
  time_overlap : Z * Z      (* 'start', 'end' *)
}.

Record Results : Type := mkResults {
  status : string;
  conflicts : list ConflictEntry;
  performance : Performance
}.

Module DeconflictionSystem.

Record t : Type := mk {
  safety_buffer : Q;
  max_simulated_drones : Z;
  simulated_drones : gmap string Drone.t;
  spatial_index : option (list (Q * Q * Q));   (* the tree's [data] *)
  time_index : list (Z * list string);
  conflict_cache : gmap string cached
}.

Definition __init__ (safety_buffer : Q) (max_simulated_drones : Z) : t :=
  mk safety_buffer max_simulated_drones ∅ None [] ∅.

Definition set_simulated_drones (self : t) (m : gmap string Drone.t) : t :=
  mk (safety_buffer self) (max_simulated_drones self) m
     (spatial_index self) (time_index self) (conflict_cache self).

Definition set_spatial_index (self : t) (s : option (list (Q * Q * Q))) : t :=
  mk (safety_buffer self) (max_simulated_drones self) (simulated_drones self)
     s (time_index self) (conflict_cache self).

Definition set_time_index (self : t) (i : list (Z * list string)) : t :=
  mk (safety_buffer self) (max_simulated_drones self) (simulated_drones self)
     (spatial_index self) i (conflict_cache self).

Definition set_conflict_cache (self : t) (c : gmap string cached) : t :=
  mk (safety_buffer self) (max_simulated_drones self) (simulated_drones self)
     (spatial_index self) (time_index self) c.

(** [if time not in self.time_index: self.time_index[time] = []] followed by
    [self.time_index[time].append(drone_id)]: an existing bucket is extended
    in place, a new key goes last. *)
Fixpoint bucket_append (time : Z) (drone_id : string)
    (index : list (Z * list string)) : list (Z * list string) :=
  match index with
  | [] => [(time, [drone_id])]
  | (t0, bucket) :: rest =>
      if decide (t0 = time) then (t0, bucket ++ [drone_id]) :: rest
      else (t0, bucket) :: bucket_append time drone_id rest
  end.

Section Engine.
Context {rt : Runtime}.

Definition _update_indexes (self : t) (drone : Drone.t) : t * option exn :=
  let new_points :=
    map (fun wp => (Waypoint.x wp, Waypoint.y wp, Waypoint.z wp))
        (Drone.waypoints drone) in
  let points :=
    match spatial_index self with
    | None => new_points
    | Some data => data ++ new_points
    end in
  if KDTree_rejects points then (self, Some LibraryError)
  else
    let self := set_spatial_index self (Some points) in
    let '(start_time, end_time) := Drone.get_time_range drone in
    let self :=
      fold_left
        (fun self time =>
           set_time_index self
             (bucket_append time (Drone.id drone) (time_index self)))
        [start_time; end_time] self in
    (self, None).

Definition add_simulated_drone (self : t) (drone : Drone.t) : t * option exn :=
  if (Z.of_nat (size (simulated_drones self)) >=? max_simulated_drones self)%Z
  then (self, Some (ValueError (MaxDronesExceeded (max_simulated_drones self))))
  else
    let self :=
      set_simulated_drones self
        (<[Drone.id drone := drone]> (simulated_drones self)) in
    _update_indexes self drone.

(** [_check_point_conflict]: each of the three [** 2] may raise. *)
Definition _check_point_conflict (self : t) (wp1 wp2 : Waypoint.t) : exn + bool :=
  let dx := double_sub (double_of (Waypoint.x wp1)) (double_of (Waypoint.x wp2)) in
  let dy := double_sub (double_of (Waypoint.y wp1)) (double_of (Waypoint.y wp2)) in
  let dz := double_sub (double_of (Waypoint.z wp1)) (double_of (Waypoint.z wp2)) in
  match double_pow2 dx with
  | None => inl OverflowError
  | Some dx2 =>
      match double_pow2 dy with
      | None => inl OverflowError
      | Some dy2 =>
          match double_pow2 dz with
          | None => inl OverflowError
          | Some dz2 =>
              let distance :=
                double_pow_half (double_add (double_add dx2 dy2) dz2) in
              inr (double_lt distance (double_of (safety_buffer self)))
          end
      end
  end.

Definition spatial_key (primary_drone simulated_drone : Drone.t) : string :=
  "spatial_" +:+ Drone.id primary_drone +:+ "_" +:+ Drone.id simulated_drone.

Definition temporal_key (primary_drone simulated_drone : Drone.t) : string :=
  "temporal_" +:+ Drone.id primary_drone +:+ "_" +:+ Drone.id simulated_drone.

(** The two nested [for] loops of [_check_spatial_conflict], with the
    [conflicts] list they append to; once a point test has raised, the
    loops are left with that exception. *)
Definition scan_waypoints (self : t) (primary_drone simulated_drone : Drone.t)
    : exn + list ConflictPoint.t :=
  fold_left
    (fun conflicts wp1 =>
       fold_left
         (fun conflicts wp2 =>
            match conflicts with
            | inl raised => inl raised
            | inr conflicts =>
                match _check_point_conflict self wp1 wp2 with
                | inl raised => inl raised
                | inr true =>
                    inr (conflicts ++
                         [ConflictPoint.mk (Drone.id simulated_drone)
                            (Waypoint.x wp1, Waypoint.y wp1, Waypoint.z wp1)
                            "spatial" "high"])
                | inr false => inr conflicts
                end
            end)
         (Drone.waypoints simulated_drone) conflicts)
    (Drone.waypoints primary_drone) (inr []).

(** [_check_spatial_conflict]: when the scan raises, nothing is cached. *)
Definition _check_spatial_conflict (self : t)
    (primary_drone simulated_drone : Drone.t) : t * (exn + cached) :=
  let cache_key := spatial_key primary_drone simulated_drone in
  match conflict_cache self !! cache_key with
  | Some hit => (self, inr hit)
  | None =>
      match scan_waypoints self primary_drone simulated_drone with
      | inl raised => (self, inl raised)
      | inr conflicts =>
          (set_conflict_cache self
             (<[cache_key := CPoints conflicts]> (conflict_cache self)),
           inr (CPoints conflicts))
      end
  end.

(** The interval test computed by [_check_temporal_conflict] on a miss. *)
Definition time_ranges_overlap (primary_drone simulated_drone : Drone.t) : bool :=
  let '(t1_start, t1_end) := Drone.get_time_range primary_drone in
  let '(t2_start, t2_end) := Drone.get_time_range simulated_drone in
  negb ((t1_end <=? t2_start)%Z || (t1_start >=? t2_end)%Z).

Definition _check_temporal_conflict (self : t)
    (primary_drone simulated_drone : Drone.t) : t * cached :=
  let cache_key := temporal_key primary_drone simulated_drone in
  match conflict_cache self !! cache_key with
  | Some hit => (self, hit)
  | None =>
      let conflict := time_ranges_overlap primary_drone simulated_drone in
      (set_conflict_cache self
         (<[cache_key := CBool conflict]> (conflict_cache self)),
       CBool conflict)
  end.

(** The candidate list: the buckets of the index keys inside the primary
    window, in key order, passed through [list(set(...))]. *)
Definition relevant_drones (self : t) (primary_drone : Drone.t) : list string :=
  let '(start_time, end_time) := Drone.get_time_range primary_drone in
  list_set
    (fold_left
       (fun relevant_drones '(time, bucket) =>
          if (start_time <=? time)%Z && (time <=? end_time)%Z
          then relevant_drones ++ bucket
          else relevant_drones)
       (time_index self) []).

Definition incr_temporal_checks (r : Results) : Results :=
  let p := performance r in
  mkResults (status r) (conflicts r)
    (mkPerformance (spatial_checks p) (S (temporal_checks p)) (cache_hits p)
       (total_drones p) (validation_time p)).

Definition incr_spatial_checks (r : Results) : Results :=
  let p := performance r in
  mkResults (status r) (conflicts r)
    (mkPerformance (S (spatial_checks p)) (temporal_checks p) (cache_hits p)
       (total_drones p) (validation_time p)).

Definition set_validation_time (r : Results) (d : Z) : Results :=
  let p := performance r in
  mkResults (status r) (conflicts r)
    (mkPerformance (spatial_checks p) (temporal_checks p) (cache_hits p)
       (total_drones p) (Some d)).

(** One turn of [for drone_id in relevant_drones]. *)
Definition validate_body (primary_drone : Drone.t) (drone_id : string)
    (self : t) (results : Results) : t * (exn + Results) :=
  match simulated_drones self !! drone_id with
  | None => (self, inl (KeyError drone_id))
  | Some simulated_drone =>
      let results := incr_temporal_checks results in
      let '(self, temporal) :=
        _check_temporal_conflict self primary_drone simulated_drone in
      if truthy temporal then
        let results := incr_spatial_checks results in
        match _check_spatial_conflict self primary_drone simulated_drone with
        | (self, inl raised) => (self, inl raised)
        | (self, inr spatial_conflicts) =>
            if truthy spatial_conflicts then
              (self,
               inr (mkResults "conflict"
                      (conflicts results ++
                       [mkConflictEntry drone_id spatial_conflicts
                          (Z.max (Drone.start_time primary_drone)
                                 (Drone.start_time simulated_drone),
                           Z.min (Drone.end_time primary_drone)
                                 (Drone.end_time simulated_drone))])
                      (performance results)))
            else (self, inr results)
        end
      else (self, inr results)
  end.

Fixpoint validate_loop (primary_drone : Drone.t) (ids : list string)
    (self : t) (results : Results) : t * (exn + Results) :=
  match ids with
  | [] => (self, inr results)
  | drone_id :: rest =>
      match validate_body primary_drone drone_id self results with
      | (self, inl e) => (self, inl e)
      | (self, inr results) => validate_loop primary_drone rest self results
      end
  end.

(** [validate_mission]; [now_enter] and [now_exit] are the two readings of
    [datetime.now()], on entry and just before the return. *)
Definition validate_mission (self : t) (primary_drone : Drone.t)
    (now_enter now_exit : Z) : t * (exn + Results) :=
  let results :=
    mkResults "clear" []
      (mkPerformance 0 0 0 (size (simulated_drones self)) None) in
  let start_time := now_enter in
  let '(start_time, end_time) := Drone.get_time_range primary_drone in
  let relevant_drones := relevant_drones self primary_drone in
  match validate_loop primary_drone relevant_drones self results with
  | (self, inl e) => (self, inl e)
  | (self, inr results) =>
      (self, inr (set_validation_time results (now_exit - start_time)))
  end.

(** ** Histories of calls on one engine *)

Inductive call : Type :=
| Register (drone : Drone.t)
| Validate (primary_drone : Drone.t) (now_enter now_exit : Z).

Definition perform (self : t) (c : call) : t :=
  match c with
  | Register drone => fst (add_simulated_drone self drone)
  | Validate primary_drone now_enter now_exit =>
      fst (validate_mission self primary_drone now_enter now_exit)
  end.

Definition run (calls : list call) (self : t) : t := fold_left perform calls self.

End Engine.

End DeconflictionSystem.

(** ** A concrete runtime and sample missions

    Used to evaluate the engine on explicit inputs.  Sets enumerate in
    first-occurrence order and the tree constructor rejects an empty point
    array; the sample histories below only build sets of one candidate and
    non-empty point arrays, where interpreter and library answer this way.
    Doubles are IEEE binary64 (the kernel's [float]), with [x ** 2] computed
    as the rounded product and [x ** 0.5] as the rounded square root. *)

(** The double nearest to an integer. *)
Definition double_of_Z (z : Z) : PrimFloat.float :=
  FloatOps.SF2Prim
    (SpecFloat.binary_normalize FloatOps.prec FloatOps.emax z 0 false).

(** The double for a rational, as the rounded quotient of the doubles
    nearest to its numerator and denominator: exact when both are doubles
    and the rational is one, as for the sample coordinates and buffers
    below (numerators below 2^53 or a power of two, denominators a power of
    two). *)
Definition double_of_Q (q : Q) : PrimFloat.float :=
  PrimFloat.div (double_of_Z (Qnum q)) (double_of_Z (Zpos (Qden q))).

(** [x ** 2]: out of range when the product of a finite [x] is infinite. *)
Definition ieee_pow2 (x : PrimFloat.float) : option PrimFloat.float :=
  let r := PrimFloat.mul x x in
  if PrimFloat.is_infinity r && negb (PrimFloat.is_infinity x) then None
  else Some r.

Definition sample_runtime : Runtime :=
  {| list_set := remove_dups;
     list_set_NoDup := NoDup_remove_dups;
     list_set_elem := elem_of_remove_dups;
     KDTree_rejects := fun points =>
       match points with
       | [] => true
       | _ :: _ => false
       end;
     double := PrimFloat.float;
     double_of := double_of_Q;
     double_sub := PrimFloat.sub;
     double_add := PrimFloat.add;
     double_pow2 := ieee_pow2;
     double_pow_half := PrimFloat.sqrt;
     double_lt := PrimFloat.ltb;
     double_lt_irrefl := ltac:(
       intros x; rewrite FloatAxioms.ltb_spec; unfold SpecFloat.SFltb;
       destruct (FloatOps.Prim2SF x) as [?|[|]| |[|] m e]; simpl;
       try reflexivity;
       rewrite ?Z.compare_refl, ?Pos.compare_refl; reflexivity) |}.

Definition origin (timestamp : Z) : Waypoint.t := Waypoint.mk 0 0 0 timestamp.

(** A mission over the window [0, 10] with one waypoint at the origin. *)
Definition primary_a : Drone.t := Drone.mk "p" [origin 0] 0 10.

(** Another mission with the same id, over the window [0, 5], far away. *)
Definition primary_b : Drone.t := Drone.mk "p" [Waypoint.mk 900 900 90 0] 0 5.

(** A simulated mission over [5, 15] with one waypoint at the origin. *)
Definition peer : Drone.t := Drone.mk "s" [origin 5] 5 15.

(** The same id registered with a later window. *)
Definition peer_later : Drone.t := Drone.mk "s" [origin 20] 20 30.

(** [primary_a] with a later start of its window. *)
Definition primary_late : Drone.t := Drone.mk "p" [origin 0] 3 10.

Definition fresh_engine : DeconflictionSystem.t :=
  DeconflictionSystem.__init__ 10 1000.

Definition engine_with_peer : DeconflictionSystem.t :=
  DeconflictionSystem.run (rt := sample_runtime)
    [DeconflictionSystem.Register peer] fresh_engine.

Definition engine_after_validation : DeconflictionSystem.t :=
  DeconflictionSystem.run (rt := sample_runtime)
    [DeconflictionSystem.Register peer;
     DeconflictionSystem.Validate primary_a 100 101] fresh_engine.

(** ** Notions used to state the properties

    The specification's own terms (bounds, Euclidean distance over the
    reals, the conflicts of the full cross product), the invariants of the
    engine, and names for pieces of the code that the statements refer to. *)

(** Coordinate bounds of a waypoint: |x|, |y| <= 10000 and |z| <= 500. *)
Definition in_bounds (wp : Waypoint.t) : Prop :=
  (Qabs (Waypoint.x wp) <= 10000)%Q /\
  (Qabs (Waypoint.y wp) <= 10000)%Q /\
  (Qabs (Waypoint.z wp) <= 500)%Q.

(** Euclidean distance sqrt(dx² + dy² + dz²) between two waypoints. *)
Definition distance (wp1 wp2 : Waypoint.t) : R :=
  sqrt ((Q2R (Waypoint.x wp1) - Q2R (Waypoint.x wp2)) ^ 2
        + (Q2R (Waypoint.y wp1) - Q2R (Waypoint.y wp2)) ^ 2
        + (Q2R (Waypoint.z wp1) - Q2R (Waypoint.z wp2)) ^ 2)%R.

Definition Qltb (a b : Q) : bool := negb (Qle_bool b a).

(** Whether that distance, taken over the reals with no rounding, is
    strictly below [buffer]; decided on the rationals, the root of a sum of
    squares [s] being below [b] exactly when [b] is positive and
    [s < b * b] (see [really_closer_spec]). *)
Definition really_closer (buffer : Q) (wp1 wp2 : Waypoint.t) : bool :=
  let dx := (Waypoint.x wp1 - Waypoint.x wp2)%Q in
  let dy := (Waypoint.y wp1 - Waypoint.y wp2)%Q in
  let dz := (Waypoint.z wp1 - Waypoint.z wp2)%Q in
  Qltb 0 buffer && Qltb (dx ^ 2 + dy ^ 2 + dz ^ 2)%Q (buffer * buffer).

(** The conflict point emitted for a pair: at [wp1], severity High. *)
Definition conflict_at (simulated_drone : Drone.t) (wp1 : Waypoint.t)
    : ConflictPoint.t :=
  ConflictPoint.mk (Drone.id simulated_drone)
    (Waypoint.x wp1, Waypoint.y wp1, Waypoint.z wp1) "spatial" "high".


(** The distance as the code computes it, in doubles:
    [(dx**2 + dy**2 + dz**2) ** 0.5]. *)
Definition computed_distance `{Runtime} (wp1 wp2 : Waypoint.t) : exn + double :=
  let dx := double_sub (double_of (Waypoint.x wp1)) (double_of (Waypoint.x wp2)) in
  let dy := double_sub (double_of (Waypoint.y wp1)) (double_of (Waypoint.y wp2)) in
  let dz := double_sub (double_of (Waypoint.z wp1)) (double_of (Waypoint.z wp2)) in
  match double_pow2 dx, double_pow2 dy, double_pow2 dz with
  | Some dx2, Some dy2, Some dz2 =>
      inr (double_pow_half (double_add (double_add dx2 dy2) dz2))
  | _, _, _ => inl OverflowError
  end.

(** The point test returns (does not raise) on a pair. *)
Definition test_returns `{Runtime} (self : DeconflictionSystem.t)
    (pair : Waypoint.t * Waypoint.t) : bool :=
  match DeconflictionSystem._check_point_conflict self (fst pair) (snd pair) with
  | inr _ => true
  | inl _ => false
  end.

(** The point test returns [True] on a pair. *)
Definition test_true `{Runtime} (self : DeconflictionSystem.t)
    (pair : Waypoint.t * Waypoint.t) : bool :=
  match DeconflictionSystem._check_point_conflict self (fst pair) (snd pair) with
  | inr true => true
  | _ => false
  end.

(** The conflicts list after the pairs [pairs] have been tested in turn,
    starting from [conflicts]. *)
Definition collect `{Runtime} (self : DeconflictionSystem.t)
    (simulated_drone : Drone.t) (conflicts : exn + list ConflictPoint.t)
    (pairs : list (Waypoint.t * Waypoint.t)) : exn + list ConflictPoint.t :=
  match conflicts with
  | inl raised => inl raised
  | inr conflicts =>
      if forallb (test_returns self) pairs
      then inr (conflicts ++
                map (fun pair => conflict_at simulated_drone (fst pair))
                  (List.filter (test_true self) pairs))
      else inl OverflowError
  end.

(** Specification 4.4: one conflict point for every pair of the full cross
    product on which the comparison of the computed distance with the
    buffer holds; no list when the comparison raises on a pair. *)
Definition proximity_conflicts `{Runtime} (self : DeconflictionSystem.t)
    (primary_drone simulated_drone : Drone.t) : exn + list ConflictPoint.t :=
  let pairs :=
    list_prod (Drone.waypoints primary_drone)
              (Drone.waypoints simulated_drone) in
  if forallb (test_returns self) pairs
  then inr (map (fun pair => conflict_at simulated_drone (fst pair))
              (List.filter (test_true self) pairs))
  else inl OverflowError.

(** The frame of a validation: every field but the cache is the same, and
    the cache keeps every entry it had. *)
Definition only_cache_grows (self self' : DeconflictionSystem.t) : Prop :=
  DeconflictionSystem.safety_buffer self' = DeconflictionSystem.safety_buffer self
  /\ DeconflictionSystem.max_simulated_drones self'
     = DeconflictionSystem.max_simulated_drones self
  /\ DeconflictionSystem.simulated_drones self'
     = DeconflictionSystem.simulated_drones self
  /\ DeconflictionSystem.spatial_index self' = DeconflictionSystem.spatial_index self
  /\ DeconflictionSystem.time_index self' = DeconflictionSystem.time_index self
  /\ DeconflictionSystem.conflict_cache self
     ⊆ DeconflictionSystem.conflict_cache self'.


(** The results dictionary [validate_mission] starts from. *)
Definition initial_results (self : DeconflictionSystem.t) : Results :=
  mkResults "clear" []
    (mkPerformance 0 0 0 (size (DeconflictionSystem.simulated_drones self)) None).

(** The point array [_update_indexes] hands to [KDTree] for a new drone. *)
Definition rebuilt_points (self : DeconflictionSystem.t) (drone : Drone.t)
    : list (Q * Q * Q) :=
  let new_points :=
    map (fun wp => (Waypoint.x wp, Waypoint.y wp, Waypoint.z wp))
        (Drone.waypoints drone) in
  match DeconflictionSystem.spatial_index self with
  | None => new_points
  | Some data => data ++ new_points
  end.

(** The capacity error of [add_simulated_drone]. *)
Definition capacity_exceeded (self : DeconflictionSystem.t) : exn :=
  ValueError (MaxDronesExceeded (DeconflictionSystem.max_simulated_drones self)).

(** A field of the results a call returned, if it returned any. *)
Definition reported {A : Type} (field : Results -> A) (out : exn + Results)
    : option A :=
  match out with
  | inr r => Some (field r)
  | inl _ => None
  end.

(** The registry holds no more missions than the configured maximum. *)
Definition within_capacity (self : DeconflictionSystem.t) : Prop :=
  (Z.of_nat (size (DeconflictionSystem.simulated_drones self))
   <= DeconflictionSystem.max_simulated_drones self)%Z.

(** ** Further methods of drone.py and deconfliction.py *)

(** [Drone.get_trajectory]. *)
Definition get_trajectory (self : Drone.t) : list (Q * Q * Q) :=
  map (fun wp => (Waypoint.x wp, Waypoint.y wp, Waypoint.z wp))
      (Drone.waypoints self).

(** The test of the loop body of [Drone.validate_trajectory] at index [i]:
    [self.waypoints[i].timestamp > self.waypoints[i+1].timestamp]. *)
Definition out_of_order (wps : list Waypoint.t) (i : nat) : bool :=
  match wps !! i, wps !! S i with
  | Some wp_i, Some wp_next =>
      (Waypoint.timestamp wp_i >? Waypoint.timestamp wp_next)%Z
  | _, _ => false
  end.

(** [Drone.validate_trajectory]: [for i in range(len(self.waypoints) - 1)]
    with its early [return False], then the test on the total time. *)
Definition validate_trajectory (self : Drone.t) : bool :=
  if existsb (out_of_order (Drone.waypoints self))
       (seq 0 (length (Drone.waypoints self) - 1))
  then false
  else
    let total_time := (Drone.end_time self - Drone.start_time self)%Z in
    if (total_time <=? 0)%Z then false else true.






(** ** A validation that consults no cache

    The algorithm of [validate_mission] with both checks computed for every
    candidate: what the engine would answer with an empty cache. *)

(** One candidate: count the temporal check; when the windows overlap count
    the spatial check, and when it finds conflict points add the entry. *)
Definition after_candidate `{Runtime} (self : DeconflictionSystem.t)
    (primary_drone : Drone.t) (drone_id : string) (simulated_drone : Drone.t)
    (results : Results) : exn + Results :=
  let results := DeconflictionSystem.incr_temporal_checks results in
  if DeconflictionSystem.time_ranges_overlap primary_drone simulated_drone then
    let results := DeconflictionSystem.incr_spatial_checks results in
    match proximity_conflicts self primary_drone simulated_drone with
    | inl raised => inl raised
    | inr [] => inr results
    | inr ((_ :: _) as points) =>
        inr (mkResults "conflict"
               (conflicts results ++
                [mkConflictEntry drone_id (CPoints points)
                   (Z.max (Drone.start_time primary_drone)
                          (Drone.start_time simulated_drone),
                    Z.min (Drone.end_time primary_drone)
                          (Drone.end_time simulated_drone))])
               (performance results))
    end
  else inr results.

Fixpoint uncached_results `{Runtime} (self : DeconflictionSystem.t)
    (primary_drone : Drone.t) (ids : list string) (results : Results)
    : exn + Results :=
  match ids with
  | [] => inr results
  | drone_id :: rest =>
      match DeconflictionSystem.simulated_drones self !! drone_id with
      | None => inl (KeyError drone_id)
      | Some simulated_drone =>
          match after_candidate self primary_drone drone_id simulated_drone
                  results with
          | inl raised => inl raised
          | inr results => uncached_results self primary_drone rest results
          end
      end
  end.

(** ** Further invariants and sample missions *)

(** The registry files every mission under its own id. *)
Definition registry_keyed (self : DeconflictionSystem.t) : Prop :=
  forall (key : string) (drone : Drone.t),
    DeconflictionSystem.simulated_drones self !! key = Some drone ->
    Drone.id drone = key.

(** Mission [drone_id] is listed in the bucket of instant [time]. *)
Definition index_has (self : DeconflictionSystem.t) (time : Z)
    (drone_id : string) : Prop :=
  exists bucket,
    (time, bucket) ∈ DeconflictionSystem.time_index self /\ drone_id ∈ bucket.


(** The drones a history submits for registration. *)
Definition submitted (calls : list DeconflictionSystem.call)
    : list Drone.t :=
  flat_map
    (fun c =>
       match c with
       | DeconflictionSystem.Register drone => [drone]
       | DeconflictionSystem.Validate _ _ _ => []
       end)
    calls.




(** Two waypoints at the doubles (0.7, 0, 0) and (4.2, 1.2, 0), and an
    engine whose buffer is the double 3.7; each rational is the exact value
    of the double. *)
Definition near_a : Waypoint.t :=
  Waypoint.mk (3152519739159347 # 4503599627370496) 0 0 0.

Definition near_b : Waypoint.t :=
  Waypoint.mk (4728779608739021 # 1125899906842624)
    (5404319552844595 # 4503599627370496) 0 0.

Definition engine_3_7 : DeconflictionSystem.t :=
  DeconflictionSystem.__init__ (4165829655317709 # 1125899906842624) 1000.

(** The waypoint (1, 1, 0), and an engine whose buffer is the double
    [2 ** 0.5]. *)
Definition unit_corner : Waypoint.t := Waypoint.mk 1 1 0 0.

Definition engine_root2 : DeconflictionSystem.t :=
  DeconflictionSystem.__init__ (6369051672525773 # 4503599627370496) 1000.

(** A waypoint at x = 2^600, a double whose square is out of range. *)
Definition far_out : Waypoint.t := Waypoint.mk (inject_Z (2 ^ 600)) 0 0 0.

(** A mission over [0, 10] with that waypoint. *)
Definition primary_far : Drone.t := Drone.mk "p" [far_out] 0 10.

(** Nothing is ever taken out of the engine: registered ids stay registered,
    bucket memberships stay, cache entries stay as they are, the index data
    is only extended, and the two settings keep their values. *)
Definition never_shrinks (self self' : DeconflictionSystem.t) : Prop :=
  DeconflictionSystem.safety_buffer self' = DeconflictionSystem.safety_buffer self
  /\ DeconflictionSystem.max_simulated_drones self'
     = DeconflictionSystem.max_simulated_drones self
  /\ (forall key,
        is_Some (DeconflictionSystem.simulated_drones self !! key) ->
        is_Some (DeconflictionSystem.simulated_drones self' !! key))
  /\ (forall time drone_id,
        index_has self time drone_id -> index_has self' time drone_id)
  /\ DeconflictionSystem.conflict_cache self
     ⊆ DeconflictionSystem.conflict_cache self'
  /\ (forall data,
        DeconflictionSystem.spatial_index self = Some data ->
        exists more,
          DeconflictionSystem.spatial_index self' = Some (data ++ more)).

(** Everything the engine holds comes from the drones in [drones]: the
    registry files each of them under its own id, every bucket entry is the
    id of one of them under its start or end time, the index has one bucket
    per instant, and the index data are waypoints of theirs. *)
Definition made_from (drones : list Drone.t) (self : DeconflictionSystem.t)
    : Prop :=
  (forall key drone,
     DeconflictionSystem.simulated_drones self !! key = Some drone ->
     Drone.id drone = key /\ drone ∈ drones)
  /\ (forall time bucket drone_id,
        (time, bucket) ∈ DeconflictionSystem.time_index self ->
        drone_id ∈ bucket ->
        exists drone,
          drone ∈ drones /\ Drone.id drone = drone_id
          /\ (time = Drone.start_time drone \/ time = Drone.end_time drone))
  /\ NoDup (map fst (DeconflictionSystem.time_index self))
  /\ (forall data point,
        DeconflictionSystem.spatial_index self = Some data ->
        point ∈ data ->
        exists drone, drone ∈ drones /\ point ∈ get_trajectory drone).

(** The shape of a results dictionary: the status says whether there are
    conflict entries, the counters are ordered, and every entry carries a
    truthy value under ['conflict_locations']. *)
Definition well_shaped (r : Results) : Prop :=
  ((conflicts r = [] /\ status r = "clear")
   \/ (conflicts r <> [] /\ status r = "conflict"))
  /\ length (conflicts r) <= spatial_checks (performance r)
  /\ spatial_checks (performance r) <= temporal_checks (performance r)
  /\ Forall (fun entry => truthy (conflict_locations entry) = true) (conflicts r).


(** * Properties *)

(** ** Mission construction *)

Lemma validate_coordinates_spec (wp : Waypoint.t) :
  utils.validate_coordinates (Waypoint.x wp) (Waypoint.y wp) (Waypoint.z wp) = true
  <-> in_bounds wp.
Proof.
  unfold utils.validate_coordinates, in_bounds.
  rewrite !andb_true_iff, !Qle_bool_iff. tauto.
Qed.

Lemma check_waypoints_ok (wps : list Waypoint.t) :
  Drone.check_waypoints wps = inr tt <-> Forall in_bounds wps.
Proof.
  induction wps as [|wp wps IH]; simpl.
  - split; [constructor | reflexivity].
  - destruct (utils.validate_coordinates _ _ _) eqn:Hv; simpl.
    + rewrite IH. apply validate_coordinates_spec in Hv.
      split; [by constructor | by inversion 1].
    + split; [discriminate|]. inversion 1 as [|? ? Hb _]; subst.
      apply validate_coordinates_spec in Hb. congruence.
Qed.

(** X2: the validator [__post_init__] accepts exactly the missions the
    specification calls valid: at least one waypoint,
    [start_time < end_time], every waypoint within bounds. *)
Lemma post_init_accepts (self : Drone.t) :
  Drone.__post_init__ self = inr tt
  <-> Drone.waypoints self <> [] /\
      (Drone.start_time self < Drone.end_time self)%Z /\
      Forall in_bounds (Drone.waypoints self).
Proof.
  unfold Drone.__post_init__.
  destruct (Drone.waypoints self) as [|wp wps] eqn:Hw.
  - split; [discriminate | intros [H _]; congruence].
  - destruct (Z.leb_spec (Drone.end_time self) (Drone.start_time self)).
    + split; [discriminate | intros (_ & ? & _); lia].
    + rewrite check_waypoints_ok. intuition (lia || discriminate).
Qed.

(** The constructor is the class's own [__init__]: it never raises. *)
Lemma new_is_init (id : string) (waypoints : list Waypoint.t) (start_time end_time : Z) :
  Drone.new id waypoints start_time end_time
  = inr (Drone.__init__ id waypoints start_time end_time).
Proof. reflexivity. Qed.

(** C1 (the code departs from the claim): constructing a mission with no
    waypoint and [end_time <= start_time] succeeds, although the validator
    [__post_init__] rejects that very mission; the same holds for a waypoint
    outside the coordinate bounds. *)
Theorem construction_skips_validation :
  Drone.new "d" [] 10 5 = inr (Drone.mk "d" [] 10 5)
  /\ Drone.__post_init__ (Drone.mk "d" [] 10 5) = inl (ValueError NoWaypoints)
  /\ Drone.new "d" [origin 0] 10 5 = inr (Drone.mk "d" [origin 0] 10 5)
  /\ Drone.__post_init__ (Drone.mk "d" [origin 0] 10 5)
     = inl (ValueError EndNotAfterStart)
  /\ Drone.new "d" [Waypoint.mk 0 0 1000 0] 0 5
     = inr (Drone.mk "d" [Waypoint.mk 0 0 1000 0] 0 5)
  /\ Drone.__post_init__ (Drone.mk "d" [Waypoint.mk 0 0 1000 0] 0 5)
     = inl (ValueError (InvalidCoordinates 0 0 1000)).
Proof. repeat split; vm_compute; reflexivity. Qed.

(** ** The temporal-overlap test *)

Section Checks.
Import DeconflictionSystem.

Lemma time_ranges_overlap_iff (a b : Drone.t) :
  time_ranges_overlap a b = true
  <-> (Drone.start_time a < Drone.end_time b
       /\ Drone.start_time b < Drone.end_time a)%Z.
Proof. unfold time_ranges_overlap; simpl. lia. Qed.

Lemma time_ranges_overlap_sym (a b : Drone.t) :
  time_ranges_overlap a b = time_ranges_overlap b a.
Proof.
  apply eq_true_iff_eq. rewrite !time_ranges_overlap_iff. tauto.
Qed.

(** X3: for two windows with [start_time < end_time] the test holds
    exactly when the half-open windows share an instant. *)
Lemma time_ranges_overlap_shared_instant (a b : Drone.t) :
  (Drone.start_time a < Drone.end_time a)%Z ->
  (Drone.start_time b < Drone.end_time b)%Z ->
  time_ranges_overlap a b = true
  <-> exists t : Z,
        (Drone.start_time a <= t < Drone.end_time a
         /\ Drone.start_time b <= t < Drone.end_time b)%Z.
Proof.
  intros Ha Hb. rewrite time_ranges_overlap_iff. split.
  - intros [H1 H2].
    exists (Z.max (Drone.start_time a) (Drone.start_time b)). lia.
  - intros (t & H1 & H2). lia.
Qed.

Lemma check_temporal_result (self : t) (a b : Drone.t) :
  snd (_check_temporal_conflict self a b)
  = match conflict_cache self !! temporal_key a b with
    | Some hit => hit
    | None => CBool (time_ranges_overlap a b)
    end.
Proof.
  unfold _check_temporal_conflict.
  by destruct (conflict_cache self !! temporal_key a b).
Qed.

(** C6: the temporal-overlap test is
    [not (A.end <= B.start or A.start >= B.end)], it is symmetric in the two
    missions, and it is what [_check_temporal_conflict] returns whenever it
    computes (a cached answer for the pair's key is returned as stored). *)
Theorem temporal_test_is_interval_overlap (self : t) (a b : Drone.t) :
  time_ranges_overlap a b
  = negb ((Drone.end_time a <=? Drone.start_time b)%Z
          || (Drone.start_time a >=? Drone.end_time b)%Z)
  /\ time_ranges_overlap a b = time_ranges_overlap b a
  /\ snd (_check_temporal_conflict self a b)
     = match conflict_cache self !! temporal_key a b with
       | Some hit => hit
       | None =>
           CBool (negb ((Drone.end_time a <=? Drone.start_time b)%Z
                        || (Drone.start_time a >=? Drone.end_time b)%Z))
       end.
Proof.
  split; [reflexivity|]. split; [apply time_ranges_overlap_sym|].
  apply check_temporal_result.
Qed.

End Checks.

(** ** The spatial-proximity test *)

Section Scan.
Context {rt : Runtime}.
Import DeconflictionSystem.

Lemma check_point_conflict_computed (self : t) (wp1 wp2 : Waypoint.t) :
  _check_point_conflict self wp1 wp2
  = match computed_distance wp1 wp2 with
    | inl raised => inl raised
    | inr distance => inr (double_lt distance (double_of (safety_buffer self)))
    end.
Proof.
  unfold _check_point_conflict, computed_distance. cbv zeta.
  by repeat destruct (double_pow2 _).
Qed.

Lemma check_point_conflict_raises (self : t) (wp1 wp2 : Waypoint.t) (e : exn) :
  _check_point_conflict self wp1 wp2 = inl e -> e = OverflowError.
Proof.
  unfold _check_point_conflict. cbv zeta.
  repeat destruct (double_pow2 _); congruence.
Qed.

Lemma collect_app (self : t) (sim : Drone.t)
    (acc : exn + list ConflictPoint.t) (ps1 ps2 : list (Waypoint.t * Waypoint.t)) :
  collect self sim (collect self sim acc ps1) ps2
  = collect self sim acc (ps1 ++ ps2).
Proof.
  destruct acc as [e|l]; simpl; [done|].
  rewrite forallb_app, List.filter_app, map_app.
  destruct (forallb (test_returns self) ps1); simpl; [|done].
  destruct (forallb (test_returns self) ps2); [|done].
  by rewrite app_assoc.
Qed.

Lemma scan_inner (self : t) (sim : Drone.t) (wp1 : Waypoint.t)
    (wps2 : list Waypoint.t) (acc : exn + list ConflictPoint.t) :
  fold_left
    (fun conflicts wp2 =>
       match conflicts with
       | inl raised => inl raised
       | inr conflicts =>
           match _check_point_conflict self wp1 wp2 with
           | inl raised => inl raised
           | inr true => inr (conflicts ++ [conflict_at sim wp1])
           | inr false => inr conflicts
           end
       end)
    wps2 acc
  = collect self sim acc (map (fun wp2 => (wp1, wp2)) wps2).
Proof.
  revert acc. induction wps2 as [|wp2 wps2 IH]; intros acc; simpl.
  - destruct acc as [e|l]; simpl; [done|]. by rewrite app_nil_r.
  - rewrite IH. change ((wp1, wp2) :: ?l) with ([(wp1, wp2)] ++ l).
    rewrite <- collect_app. f_equal.
    destruct acc as [e|l]; simpl; [done|]. unfold test_returns, test_true. simpl.
    destruct (_check_point_conflict self wp1 wp2) as [e|[|]] eqn:Ht; simpl.
    + by apply check_point_conflict_raises in Ht as ->.
    + done.
    + by rewrite app_nil_r.
Qed.

Lemma scan_waypoints_spec (self : t) (primary_drone simulated_drone : Drone.t) :
  scan_waypoints self primary_drone simulated_drone
  = proximity_conflicts self primary_drone simulated_drone.
Proof.
  unfold scan_waypoints, proximity_conflicts.
  change (if forallb (test_returns self) ?ps then inr ?l else inl OverflowError)
    with (collect self simulated_drone (inr []) ps).
  generalize (inr [] : exn + list ConflictPoint.t).
  induction (Drone.waypoints primary_drone) as [|wp1 wps1 IH]; intros acc; simpl.
  - destruct acc as [e|l]; simpl; [done|]. by rewrite app_nil_r.
  - rewrite IH, (scan_inner self simulated_drone). apply collect_app.
Qed.

Lemma check_spatial_result (self : t) (a b : Drone.t) :
  snd (_check_spatial_conflict self a b)
  = match conflict_cache self !! spatial_key a b with
    | Some hit => inr hit
    | None =>
        match scan_waypoints self a b with
        | inl raised => inl raised
        | inr conflicts => inr (CPoints conflicts)
        end
    end.
Proof.
  unfold _check_spatial_conflict.
  destruct (conflict_cache self !! spatial_key a b); [done|].
  by destruct (scan_waypoints self a b).
Qed.

(** C5 (as the code has it): the point test compares the distance computed
    in double arithmetic, [(dx**2 + dy**2 + dz**2) ** 0.5] with every
    operation rounded, strictly with the safety buffer, so a computed
    distance equal to the buffer is no conflict; the only exception it
    raises is [OverflowError], from a square out of range.  When the test
    raises on no pair, the scan walks the full cross product of (primary
    waypoint, candidate waypoint) pairs and returns, for exactly the pairs
    on which the test holds, one conflict point at the primary waypoint with
    severity "high", all of them; when the test raises on a pair the scan
    raises [OverflowError].  [_check_spatial_conflict] returns the scan's
    list, or raises with it and caches nothing, whenever it computes (a
    cached answer for the pair's key is returned as stored). *)
Theorem spatial_test_is_full_cross_product
    (self : t) (primary_drone simulated_drone : Drone.t) :
  (forall wp1 wp2,
     _check_point_conflict self wp1 wp2
     = match computed_distance wp1 wp2 with
       | inl raised => inl raised
       | inr distance =>
           inr (double_lt distance (double_of (safety_buffer self)))
       end)
  /\ (forall wp1 wp2,
        computed_distance wp1 wp2 = inr (double_of (safety_buffer self)) ->
        _check_point_conflict self wp1 wp2 = inr false)
  /\ (forall wp1 wp2 e,
        _check_point_conflict self wp1 wp2 = inl e -> e = OverflowError)
  /\ scan_waypoints self primary_drone simulated_drone
     = (let pairs :=
          list_prod (Drone.waypoints primary_drone)
                    (Drone.waypoints simulated_drone) in
        if forallb (test_returns self) pairs
        then inr (map (fun pair => conflict_at simulated_drone (fst pair))
                    (List.filter (test_true self) pairs))
        else inl OverflowError)
  /\ _check_spatial_conflict self primary_drone simulated_drone
     = match conflict_cache self !! spatial_key primary_drone simulated_drone with
       | Some hit => (self, inr hit)
       | None =>
           match scan_waypoints self primary_drone simulated_drone with
           | inl raised => (self, inl raised)
           | inr conflicts =>
               (set_conflict_cache self
                  (<[spatial_key primary_drone simulated_drone
                     := CPoints conflicts]> (conflict_cache self)),
                inr (CPoints conflicts))
           end
       end.
Proof.
  split; [apply check_point_conflict_computed|].
  split; [|split; [apply check_point_conflict_raises|]].
  - intros wp1 wp2 Htie.
    by rewrite check_point_conflict_computed, Htie, double_lt_irrefl.
  - split; [apply scan_waypoints_spec|reflexivity].
Qed.

End Scan.

(** ** The point test against the distance over the reals *)

Section RealDistance.

Lemma Qltb_lt (a b : Q) : Qltb a b = true <-> (a < b)%Q.
Proof.
  unfold Qltb. rewrite negb_true_iff, <- not_true_iff_false, Qle_bool_iff.
  split; [apply Qnot_le_lt | apply Qlt_not_le].
Qed.

Lemma root_below (s b : Q) :
  (0 <= Q2R s)%R ->
  Qltb 0 b && Qltb s (b * b) = true <-> (sqrt (Q2R s) < Q2R b)%R.
Proof.
  intros Hs. rewrite andb_true_iff, !Qltb_lt. split.
  - intros [Hb Hlt]. apply Qlt_Rlt in Hb, Hlt.
    rewrite Q2R_mult in Hlt. change (Q2R 0) with (0 / 1)%R in Hb.
    assert (0 < Q2R b)%R as Hb' by lra.
    rewrite <- (sqrt_square (Q2R b)) by lra.
    apply sqrt_lt_1; [lra | nra | lra].
  - intros Hlt. pose proof (sqrt_pos (Q2R s)) as Hp.
    assert (0 < Q2R b)%R as Hb by lra.
    split; apply Rlt_Qlt.
    + unfold Q2R at 1. simpl. lra.
    + rewrite Q2R_mult.
      rewrite <- (sqrt_sqrt (Q2R s)) at 1 by lra. nra.
Qed.

Lemma squares_in_R (wp1 wp2 : Waypoint.t) :
  Q2R ((Waypoint.x wp1 - Waypoint.x wp2) ^ 2
       + (Waypoint.y wp1 - Waypoint.y wp2) ^ 2
       + (Waypoint.z wp1 - Waypoint.z wp2) ^ 2)%Q
  = ((Q2R (Waypoint.x wp1) - Q2R (Waypoint.x wp2)) ^ 2
     + (Q2R (Waypoint.y wp1) - Q2R (Waypoint.y wp2)) ^ 2
     + (Q2R (Waypoint.z wp1) - Q2R (Waypoint.z wp2)) ^ 2)%R.
Proof.
  change (?q ^ 2)%Q with (q * q)%Q.
  rewrite !Q2R_plus, !Q2R_mult, !Q2R_minus. ring.
Qed.

Lemma really_closer_spec (buffer : Q) (wp1 wp2 : Waypoint.t) :
  really_closer buffer wp1 wp2 = true <-> (distance wp1 wp2 < Q2R buffer)%R.
Proof.
  unfold really_closer, distance. cbv zeta.
  rewrite root_below; rewrite squares_in_R; [reflexivity|].
  repeat apply Rplus_le_le_0_compat; apply pow2_ge_0.
Qed.

End RealDistance.

(** ** Frame of the two cached checks *)

Section Frame.
Context {rt : Runtime}.
Import DeconflictionSystem.

Lemma only_cache_grows_refl (self : t) : only_cache_grows self self.
Proof. by repeat split. Qed.

Lemma only_cache_grows_trans (s1 s2 s3 : t) :
  only_cache_grows s1 s2 -> only_cache_grows s2 s3 -> only_cache_grows s1 s3.
Proof.
  intros (?&?&?&?&?&?) (?&?&?&?&?&?).
  repeat split; try congruence. by etrans.
Qed.

Lemma only_cache_grows_insert (self : t) (key : string) (v : cached) :
  conflict_cache self !! key = None ->
  only_cache_grows self
    (set_conflict_cache self (<[key := v]> (conflict_cache self))).
Proof. intros Hnone. repeat split; simpl. by apply insert_subseteq. Qed.

Lemma check_temporal_frame (self : t) (a b : Drone.t) :
  only_cache_grows self (fst (_check_temporal_conflict self a b)).
Proof.
  unfold _check_temporal_conflict.
  destruct (conflict_cache self !! temporal_key a b) eqn:Hc; simpl.
  - apply only_cache_grows_refl.
  - by apply only_cache_grows_insert.
Qed.

Lemma check_spatial_frame (self : t) (a b : Drone.t) :
  only_cache_grows self (fst (_check_spatial_conflict self a b)).
Proof.
  unfold _check_spatial_conflict.
  destruct (conflict_cache self !! spatial_key a b) eqn:Hc; simpl.
  - apply only_cache_grows_refl.
  - destruct (scan_waypoints self a b); simpl.
    + apply only_cache_grows_refl.
    + by apply only_cache_grows_insert.
Qed.

(** After a check that returns, its answer sits in the cache under the
    pair's key. *)
Lemma check_temporal_stored (self : t) (a b : Drone.t) :
  conflict_cache (fst (_check_temporal_conflict self a b)) !! temporal_key a b
  = Some (snd (_check_temporal_conflict self a b)).
Proof.
  unfold _check_temporal_conflict.
  destruct (conflict_cache self !! temporal_key a b) eqn:Hc; simpl; [done|].
  apply lookup_insert_eq.
Qed.

Lemma check_spatial_stored (self : t) (a b : Drone.t) (v : cached) :
  snd (_check_spatial_conflict self a b) = inr v ->
  conflict_cache (fst (_check_spatial_conflict self a b)) !! spatial_key a b
  = Some v.
Proof.
  unfold _check_spatial_conflict.
  destruct (conflict_cache self !! spatial_key a b) eqn:Hc; simpl.
  - by intros [= <-].
  - destruct (scan_waypoints self a b); simpl; [done|].
    intros [= <-]. apply lookup_insert_eq.
Qed.

(** A spatial check that raises leaves the engine as it found it. *)
Lemma check_spatial_raised (self : t) (a b : Drone.t) (e : exn) :
  snd (_check_spatial_conflict self a b) = inl e ->
  fst (_check_spatial_conflict self a b) = self /\ e = OverflowError.
Proof.
  unfold _check_spatial_conflict.
  destruct (conflict_cache self !! spatial_key a b) eqn:Hc; simpl; [done|].
  rewrite scan_waypoints_spec. unfold proximity_conflicts.
  destruct (forallb _ _); simpl; [done|]. by intros [= <-].
Qed.

(** A check whose key is already in the cache returns the stored value and
    touches nothing. *)
Lemma check_temporal_hit (self : t) (a b : Drone.t) (v : cached) :
  conflict_cache self !! temporal_key a b = Some v ->
  _check_temporal_conflict self a b = (self, v).
Proof. intros H. unfold _check_temporal_conflict. by rewrite H. Qed.

Lemma check_spatial_hit (self : t) (a b : Drone.t) (v : cached) :
  conflict_cache self !! spatial_key a b = Some v ->
  _check_spatial_conflict self a b = (self, inr v).
Proof. intros H. unfold _check_spatial_conflict. by rewrite H. Qed.

(** The keys a check may add. *)
Lemma check_temporal_new_key (self : t) (a b : Drone.t) (key : string) :
  is_Some (conflict_cache (fst (_check_temporal_conflict self a b)) !! key) ->
  is_Some (conflict_cache self !! key) \/ key = temporal_key a b.
Proof.
  unfold _check_temporal_conflict.
  destruct (conflict_cache self !! temporal_key a b) eqn:Hc; simpl; [by left|].
  destruct (decide (key = temporal_key a b)) as [->|Hne]; [by right|].
  rewrite lookup_insert_ne by done. by left.
Qed.

Lemma check_spatial_new_key (self : t) (a b : Drone.t) (key : string) :
  is_Some (conflict_cache (fst (_check_spatial_conflict self a b)) !! key) ->
  is_Some (conflict_cache self !! key) \/ key = spatial_key a b.
Proof.
  unfold _check_spatial_conflict.
  destruct (conflict_cache self !! spatial_key a b) eqn:Hc; simpl; [by left|].
  destruct (scan_waypoints self a b); simpl; [by left|].
  destruct (decide (key = spatial_key a b)) as [->|Hne]; [by right|].
  rewrite lookup_insert_ne by done. by left.
Qed.

End Frame.

(** ** One turn of the validation loop *)

Section Body.
Context {rt : Runtime}.
Import DeconflictionSystem.

Lemma validate_body_unfold (p : Drone.t) (drone_id : string) (self : t) (r : Results) :
  validate_body p drone_id self r
  = match simulated_drones self !! drone_id with
    | None => (self, inl (KeyError drone_id))
    | Some sim =>
        let tc := _check_temporal_conflict self p sim in
        if truthy (snd tc) then
          let sc := _check_spatial_conflict (fst tc) p sim in
          (fst sc,
           match snd sc with
           | inl raised => inl raised
           | inr spatial_conflicts =>
               if truthy spatial_conflicts then
                 inr (mkResults "conflict"
                        (conflicts r ++
                         [mkConflictEntry drone_id spatial_conflicts
                            (Z.max (Drone.start_time p) (Drone.start_time sim),
                             Z.min (Drone.end_time p) (Drone.end_time sim))])
                        (performance
                           (incr_spatial_checks (incr_temporal_checks r))))
               else inr (incr_spatial_checks (incr_temporal_checks r))
           end)
        else (fst tc, inr (incr_temporal_checks r))
    end.
Proof.
  unfold validate_body. destruct (simulated_drones self !! drone_id); [|done].
  cbv zeta. destruct (_check_temporal_conflict self p t0) as [s1 v1]. simpl.
  destruct (truthy v1); [|done].
  destruct (_check_spatial_conflict s1 p t0) as [s2 [e|v2]]; simpl; [done|].
  by destruct (truthy v2).
Qed.

Lemma validate_body_frame (p : Drone.t) (drone_id : string) (self : t) (r : Results) :
  only_cache_grows self (fst (validate_body p drone_id self r)).
Proof.
  rewrite validate_body_unfold.
  destruct (simulated_drones self !! drone_id) as [sim|]; simpl;
    [|apply only_cache_grows_refl].
  pose proof (check_temporal_frame self p sim) as Ht.
  pose proof (check_spatial_frame (fst (_check_temporal_conflict self p sim)) p sim)
    as Hs.
  destruct (truthy (snd (_check_temporal_conflict self p sim))); [|done].
  simpl. by eapply only_cache_grows_trans.
Qed.

(** What one turn may add to the cache: the two keys of the pair it checks. *)
Lemma validate_body_new_key (p : Drone.t) (drone_id : string) (self : t)
    (r : Results) (key : string) :
  is_Some (conflict_cache (fst (validate_body p drone_id self r)) !! key) ->
  is_Some (conflict_cache self !! key)
  \/ exists sim, simulated_drones self !! drone_id = Some sim
                 /\ (key = temporal_key p sim \/ key = spatial_key p sim).
Proof.
  rewrite validate_body_unfold.
  destruct (simulated_drones self !! drone_id) as [sim|] eqn:Hreg; simpl;
    [|by left].
  assert (is_Some (conflict_cache
            (fst (_check_spatial_conflict
                    (fst (_check_temporal_conflict self p sim)) p sim)) !! key)
          \/ is_Some (conflict_cache
                        (fst (_check_temporal_conflict self p sim)) !! key) ->
          is_Some (conflict_cache self !! key)
          \/ exists sim0, Some sim = Some sim0
               /\ (key = temporal_key p sim0 \/ key = spatial_key p sim0)) as Hkeys.
  { intros [Hs|Ht].
    - apply check_spatial_new_key in Hs as [Ht| ->]; [|right; eauto].
      apply check_temporal_new_key in Ht as [?| ->]; [by left|right; eauto].
    - apply check_temporal_new_key in Ht as [?| ->]; [by left|right; eauto]. }
  destruct (truthy (snd (_check_temporal_conflict self p sim)));
    simpl; intros H; apply Hkeys; auto.
Qed.


(** Replaying a turn on an engine that already holds its cache entries gives
    the same outcome and changes nothing; a turn that raised is replayed on
    the engine it left. *)
Lemma validate_body_replay (p : Drone.t) (drone_id : string) (self G : t) (r : Results) :
  only_cache_grows (fst (validate_body p drone_id self r)) G ->
  (forall e, snd (validate_body p drone_id self r) = inl e ->
             G = fst (validate_body p drone_id self r)) ->
  validate_body p drone_id G r = (G, snd (validate_body p drone_id self r)).
Proof.
  intros HG.
  pose proof (only_cache_grows_trans _ _ _
                (validate_body_frame p drone_id self r) HG) as (_&_&Hreg&_&_&_).
  revert HG. rewrite !validate_body_unfold, Hreg.
  destruct (simulated_drones self !! drone_id) as [sim|] eqn:Hsim; simpl; [|done].
  pose proof (check_temporal_stored self p sim) as Ht.
  pose proof (check_spatial_stored (fst (_check_temporal_conflict self p sim)) p sim)
    as Hs.
  pose proof (check_spatial_raised (fst (_check_temporal_conflict self p sim)) p sim)
    as Hr.
  pose proof (check_spatial_frame (fst (_check_temporal_conflict self p sim)) p sim)
    as (_&_&_&_&_&Hsub).
  destruct (truthy (snd (_check_temporal_conflict self p sim))) eqn:Htt; simpl.
  - destruct (snd (_check_spatial_conflict _ p sim)) as [e|v] eqn:Hsc.
    + intros _ HG. specialize (HG e eq_refl).
      destruct (Hr e eq_refl) as [Hfst _]. rewrite Hfst in HG. subst G.
      rewrite (check_temporal_hit _ p sim _ Ht). simpl. rewrite Htt.
      by rewrite Hfst, Hsc.
    + intros (_&_&_&_&_&HG) _. specialize (Hs v eq_refl).
      rewrite (check_temporal_hit G p sim (snd (_check_temporal_conflict self p sim))).
      2:{ eapply lookup_weaken; [|exact HG].
          eapply lookup_weaken; [exact Ht|exact Hsub]. }
      simpl. rewrite Htt.
      by rewrite (check_spatial_hit G p sim v (lookup_weaken _ _ _ _ Hs HG)).
  - intros (_&_&_&_&_&HG) _.
    rewrite (check_temporal_hit G p sim _ (lookup_weaken _ _ _ _ Ht HG)). simpl.
    by rewrite Htt.
Qed.

Lemma validate_body_counters (p : Drone.t) (drone_id : string) (self : t)
    (r r' : Results) :
  snd (validate_body p drone_id self r) = inr r' ->
  cache_hits (performance r') = cache_hits (performance r)
  /\ temporal_checks (performance r') = S (temporal_checks (performance r))
  /\ total_drones (performance r') = total_drones (performance r)
  /\ validation_time (performance r') = validation_time (performance r).
Proof.
  rewrite validate_body_unfold.
  destruct (simulated_drones self !! drone_id) as [sim|]; simpl; [|done].
  destruct (truthy (snd (_check_temporal_conflict self p sim)));
    [destruct (snd (_check_spatial_conflict _ p sim)) as [e|v];
     [|destruct (truthy v)]|]; simpl; intros [= <-]; done.
Qed.

End Body.

(** ** The validation loop *)

Section Loop.
Context {rt : Runtime}.
Import DeconflictionSystem.

Lemma validate_loop_frame (p : Drone.t) (ids : list string) (self : t) (r : Results) :
  only_cache_grows self (fst (validate_loop p ids self r)).
Proof.
  revert self r. induction ids as [|drone_id rest IH]; intros self r; simpl.
  - apply only_cache_grows_refl.
  - pose proof (validate_body_frame p drone_id self r) as Hb.
    destruct (validate_body p drone_id self r) as [s [e|r1]]; simpl in *; [done|].
    eapply only_cache_grows_trans; [exact Hb|apply IH].
Qed.

Lemma validate_loop_new_key (p : Drone.t) (ids : list string) (self : t)
    (r : Results) (key : string) :
  is_Some (conflict_cache (fst (validate_loop p ids self r)) !! key) ->
  is_Some (conflict_cache self !! key)
  \/ exists drone_id sim,
       drone_id ∈ ids
       /\ simulated_drones self !! drone_id = Some sim
       /\ (key = temporal_key p sim \/ key = spatial_key p sim).
Proof.
  revert self r. induction ids as [|drone_id rest IH]; intros self r; simpl.
  - by left.
  - pose proof (validate_body_frame p drone_id self r) as (_&_&Hreg&_&_&_).
    pose proof (validate_body_new_key p drone_id self r key) as Hb.
    destruct (validate_body p drone_id self r) as [s [e|r1]]; simpl in *.
    + intros H. destruct (Hb H) as [?|(sim&?&?)]; [by left|].
      right. exists drone_id, sim. split; [apply list_elem_of_here|done].
    + intros H. destruct (IH _ _ H) as [H'|(i&sim&Hi&Hs&Hk)].
      * destruct (Hb H') as [?|(sim&?&?)]; [by left|].
        right. exists drone_id, sim. split; [apply list_elem_of_here|done].
      * right. exists i, sim. split; [by apply list_elem_of_further|].
        by rewrite <- Hreg.
Qed.

Lemma validate_loop_replay (p : Drone.t) (ids : list string) (self G : t) (r : Results) :
  only_cache_grows (fst (validate_loop p ids self r)) G ->
  (forall e, snd (validate_loop p ids self r) = inl e ->
             G = fst (validate_loop p ids self r)) ->
  validate_loop p ids G r = (G, snd (validate_loop p ids self r)).
Proof.
  revert self r. induction ids as [|drone_id rest IH]; intros self r; simpl; [done|].
  pose proof (validate_body_replay p drone_id self G r) as Hb.
  destruct (validate_body p drone_id self r) as [s [e|r1]] eqn:Hbody; simpl in *.
  - intros HG Hraised. by rewrite (Hb HG Hraised).
  - intros HG Hraised. rewrite Hb; [by apply IH| |done].
    eapply only_cache_grows_trans; [apply (validate_loop_frame p rest s r1)|exact HG].
Qed.

Lemma validate_loop_counters (p : Drone.t) (ids : list string) (self : t)
    (r r' : Results) :
  snd (validate_loop p ids self r) = inr r' ->
  cache_hits (performance r') = cache_hits (performance r)
  /\ temporal_checks (performance r') = temporal_checks (performance r) + length ids
  /\ total_drones (performance r') = total_drones (performance r)
  /\ validation_time (performance r') = validation_time (performance r).
Proof.
  revert self r. induction ids as [|drone_id rest IH]; intros self r; simpl.
  - intros [= <-]. repeat split. lia.
  - pose proof (validate_body_counters p drone_id self r) as Hb.
    destruct (validate_body p drone_id self r) as [s [e|r1]]; simpl in *; [done|].
    intros H. destruct (IH _ _ H) as (-> & -> & -> & ->).
    destruct (Hb r1 eq_refl) as (-> & -> & -> & ->). repeat split. lia.
Qed.


End Loop.

(** ** Candidate gathering and validation *)

Section Validation.
Context {rt : Runtime}.
Import DeconflictionSystem.

Lemma gather_elem (lo hi : Z) (index : list (Z * list string))
    (acc : list string) (drone_id : string) :
  drone_id ∈ fold_left
               (fun relevant_drones '(time, bucket) =>
                  if (lo <=? time)%Z && (time <=? hi)%Z
                  then relevant_drones ++ bucket
                  else relevant_drones)
               index acc
  <-> drone_id ∈ acc
      \/ exists time bucket,
           (time, bucket) ∈ index /\ (lo <= time <= hi)%Z /\ drone_id ∈ bucket.
Proof.
  revert acc. induction index as [|[time bucket] index IH]; intros acc; simpl.
  - split; [by left|]. intros [?|(?&?&H&_)]; [done|]. by apply elem_of_nil in H.
  - rewrite IH. clear IH. split.
    + intros [Hacc|(t0 & b & Hin & Hr & Hb)].
      * destruct (_ && _) eqn:Hcond; [|by left].
        apply elem_of_app in Hacc as [?|?]; [by left|].
        right. exists time, bucket. split; [apply list_elem_of_here|].
        split; [lia|done].
      * right. exists t0, b. split; [by apply list_elem_of_further|done].
    + intros [Hacc|(t0 & b & Hin & Hr & Hb)].
      * left. destruct (_ && _); [|done]. apply elem_of_app. by left.
      * apply elem_of_cons in Hin as [[= -> ->]|Hin].
        -- left. replace ((lo <=? time)%Z && (time <=? hi)%Z) with true by lia.
           apply elem_of_app. by right.
        -- right. by exists t0, b.
Qed.

Lemma relevant_drones_elem (self : t) (p : Drone.t) (drone_id : string) :
  drone_id ∈ relevant_drones self p
  <-> exists time bucket,
        (time, bucket) ∈ time_index self
        /\ (Drone.start_time p <= time <= Drone.end_time p)%Z
        /\ drone_id ∈ bucket.
Proof.
  unfold relevant_drones; simpl. rewrite list_set_elem, gather_elem.
  split; [intros [H|H]; [by apply elem_of_nil in H|done] | by right].
Qed.

Lemma relevant_drones_frame (self self' : t) (p : Drone.t) :
  time_index self' = time_index self ->
  relevant_drones self' p = relevant_drones self p.
Proof. intros H. unfold relevant_drones. by rewrite H. Qed.

Lemma validate_mission_unfold (self : t) (p : Drone.t) (now_enter now_exit : Z) :
  validate_mission self p now_enter now_exit
  = (fst (validate_loop p (relevant_drones self p) self (initial_results self)),
     match snd (validate_loop p (relevant_drones self p) self (initial_results self))
     with
     | inl e => inl e
     | inr r => inr (set_validation_time r (now_exit - Drone.start_time p))
     end).
Proof.
  unfold validate_mission, initial_results; simpl.
  by destruct (validate_loop _ _ _ _) as [s [e|r]].
Qed.

Lemma validate_mission_frame (self : t) (p : Drone.t) (now_enter now_exit : Z) :
  only_cache_grows self (fst (validate_mission self p now_enter now_exit)).
Proof. rewrite validate_mission_unfold. apply validate_loop_frame. Qed.

(** The reported duration is measured from the mission's own start time. *)
Lemma validation_time_from_mission_start (self : t) (p : Drone.t)
    (now_enter now_exit : Z) (r : Results) :
  snd (validate_mission self p now_enter now_exit) = inr r ->
  validation_time (performance r) = Some (now_exit - Drone.start_time p)%Z.
Proof.
  rewrite validate_mission_unfold; simpl.
  destruct (snd (validate_loop _ _ _ _)); [done|]. by intros [= <-].
Qed.

(** No validation ever reports a cache hit. *)
Lemma cache_hits_stay_zero (self : t) (p : Drone.t) (now_enter now_exit : Z)
    (r : Results) :
  snd (validate_mission self p now_enter now_exit) = inr r ->
  cache_hits (performance r) = 0.
Proof.
  rewrite validate_mission_unfold; simpl.
  destruct (snd (validate_loop _ _ _ _)) as [|r0] eqn:Hl; [done|].
  intros [= <-]. simpl. by apply validate_loop_counters in Hl as (-> & _).
Qed.

(** X1: a second validation of the same mission replays the first: it
    finds every answer in the cache, leaves the engine as it is, and returns
    the same status, conflicts and counters (or raises the same exception). *)
Lemma validate_twice (self : t) (p : Drone.t) (t0 t1 t2 t3 : Z) :
  let first := validate_mission self p t0 t1 in
  let second := validate_mission (fst first) p t2 t3 in
  fst second = fst first
  /\ match snd first, snd second with
     | inr r1, inr r2 =>
         status r1 = status r2
         /\ conflicts r1 = conflicts r2
         /\ spatial_checks (performance r1) = spatial_checks (performance r2)
         /\ temporal_checks (performance r1) = temporal_checks (performance r2)
         /\ cache_hits (performance r1) = cache_hits (performance r2)
     | inl e1, inl e2 => e1 = e2
     | _, _ => False
     end.
Proof.
  cbv zeta. rewrite (validate_mission_unfold self). simpl.
  set (l1 := validate_loop p (relevant_drones self p) self (initial_results self)).
  pose proof (validate_loop_frame p (relevant_drones self p) self
                (initial_results self)) as Hfr.
  fold l1 in Hfr. destruct Hfr as (Hb & Hm & Hreg & Hsp & Hti & Hsub).
  rewrite validate_mission_unfold, (relevant_drones_frame _ _ _ Hti).
  replace (initial_results (fst l1)) with (initial_results self)
    by (unfold initial_results; by rewrite Hreg).
  rewrite (validate_loop_replay p _ self (fst l1) _ (only_cache_grows_refl _))
    by done.
  fold l1. simpl. split; [done|]. by destruct (snd l1).
Qed.

End Validation.

(** ** Registration *)

(** Case split on the capacity test of [add_simulated_drone]. *)
Ltac capacity_cases self :=
  destruct (Z.geb_spec
              (Z.of_nat (size (DeconflictionSystem.simulated_drones self)))
              (DeconflictionSystem.max_simulated_drones self)).

Section Registration.
Context {rt : Runtime}.
Import DeconflictionSystem.

Lemma add_simulated_drone_unfold (self : t) (drone : Drone.t) :
  add_simulated_drone self drone
  = if (Z.of_nat (size (simulated_drones self)) >=? max_simulated_drones self)%Z
    then (self, Some (capacity_exceeded self))
    else
      let registry := <[Drone.id drone := drone]> (simulated_drones self) in
      if KDTree_rejects (rebuilt_points self drone)
      then (set_simulated_drones self registry, Some LibraryError)
      else
        (mk (safety_buffer self) (max_simulated_drones self) registry
            (Some (rebuilt_points self drone))
            (bucket_append (Drone.end_time drone) (Drone.id drone)
               (bucket_append (Drone.start_time drone) (Drone.id drone)
                  (time_index self)))
            (conflict_cache self),
         None).
Proof.
  unfold add_simulated_drone, _update_indexes, capacity_exceeded, rebuilt_points.
  destruct (_ >=? _)%Z; [done|]. simpl.
  by destruct (KDTree_rejects _).
Qed.









End Registration.

(** ** Capacity *)

Section Capacity.
Context {rt : Runtime}.
Import DeconflictionSystem.

Lemma add_keeps_max (self : t) (drone : Drone.t) :
  max_simulated_drones (fst (add_simulated_drone self drone))
  = max_simulated_drones self.
Proof.
  rewrite add_simulated_drone_unfold.
  destruct (_ >=? _)%Z; [done|]. cbv zeta. by destruct (KDTree_rejects _).
Qed.

Lemma add_registry (self : t) (drone : Drone.t) :
  (Z.of_nat (size (simulated_drones self)) < max_simulated_drones self)%Z ->
  simulated_drones (fst (add_simulated_drone self drone))
  = <[Drone.id drone := drone]> (simulated_drones self).
Proof.
  intros Hlt. rewrite add_simulated_drone_unfold.
  capacity_cases self; [lia|].
  cbv zeta. by destruct (KDTree_rejects _).
Qed.

Lemma add_keeps_capacity (self : t) (drone : Drone.t) :
  within_capacity self -> within_capacity (fst (add_simulated_drone self drone)).
Proof.
  unfold within_capacity. intros Hcap. rewrite add_keeps_max.
  capacity_cases self.
  - rewrite add_simulated_drone_unfold. by capacity_cases self; [|lia].
  - rewrite add_registry, map_size_insert by done.
    destruct (simulated_drones self !! Drone.id drone); simpl; lia.
Qed.

Lemma run_keeps_max (calls : list call) (self : t) :
  max_simulated_drones (run calls self) = max_simulated_drones self.
Proof.
  revert self. induction calls as [|c calls IH]; intros self; [done|].
  change (run (c :: calls) self) with (run calls (perform self c)).
  rewrite IH. destruct c; simpl.
  - apply add_keeps_max.
  - by destruct (validate_mission_frame self primary_drone now_enter now_exit)
      as (_&?&_).
Qed.

Lemma run_keeps_capacity (calls : list call) (self : t) :
  within_capacity self -> within_capacity (run calls self).
Proof.
  revert self. induction calls as [|c calls IH]; intros self Hcap; [done|].
  apply IH. destruct c; simpl.
  - by apply add_keeps_capacity.
  - destruct (validate_mission_frame self primary_drone now_enter now_exit)
      as (_&Hm&Hreg&_).
    unfold within_capacity. by rewrite Hm, Hreg.
Qed.

(** C4: on an engine configured with maximum [N], after any history of
    calls, registration raises the capacity error exactly when the registry
    holds [N] missions.  With [N - 1] registered the next mission is stored
    and no capacity error is raised (the call returns normally unless the
    tree constructor rejects the point data); once that mission has filled
    the registry, every further registration raises the capacity error and
    leaves the engine unchanged. *)
Theorem capacity_error_exactly_when_full
    (calls : list call) (buffer : Q) (N : nat) (drone : Drone.t) :
  let self := run calls (__init__ buffer (Z.of_nat N)) in
  let attempt := add_simulated_drone self drone in
  (snd attempt = Some (ValueError (MaxDronesExceeded (Z.of_nat N)))
   <-> size (simulated_drones self) = N)
  /\ (size (simulated_drones self) = N -> fst attempt = self)
  /\ (S (size (simulated_drones self)) = N ->
      snd attempt
      = (if KDTree_rejects (rebuilt_points self drone)
         then Some LibraryError else None)
      /\ simulated_drones (fst attempt) !! Drone.id drone = Some drone
      /\ (simulated_drones self !! Drone.id drone = None ->
          size (simulated_drones (fst attempt)) = N
          /\ forall next,
               add_simulated_drone (fst attempt) next
               = (fst attempt,
                  Some (ValueError (MaxDronesExceeded (Z.of_nat N)))))).
Proof.
  cbv zeta.
  set (self := run calls (__init__ buffer (Z.of_nat N))).
  assert (max_simulated_drones self = Z.of_nat N) as Hmax
    by (unfold self; by rewrite run_keeps_max).
  assert (within_capacity self) as Hcap.
  { apply run_keeps_capacity. unfold within_capacity; simpl.
    rewrite map_size_empty. lia. }
  unfold within_capacity in Hcap. rewrite Hmax in Hcap.
  assert (forall s next,
            max_simulated_drones s = Z.of_nat N ->
            size (simulated_drones s) = N ->
            add_simulated_drone s next
            = (s, Some (ValueError (MaxDronesExceeded (Z.of_nat N))))) as Hfull.
  { intros s next Hm Hs. rewrite add_simulated_drone_unfold.
    unfold capacity_exceeded. rewrite Hm, Hs.
    by destruct (Z.geb_spec (Z.of_nat N) (Z.of_nat N)); [|lia]. }
  split; [split|split].
  - rewrite add_simulated_drone_unfold, Hmax.
    destruct (Z.geb_spec (Z.of_nat (size (simulated_drones self))) (Z.of_nat N));
      [lia|].
    cbv zeta. by destruct (KDTree_rejects _).
  - intros Hs. by rewrite Hfull.
  - intros Hs. by rewrite Hfull.
  - intros Hs.
    assert (Z.of_nat (size (simulated_drones self)) < max_simulated_drones self)%Z
      as Hlt by lia.
    pose proof (add_registry self drone Hlt) as Hreg.
    split; [|split].
    + rewrite add_simulated_drone_unfold. capacity_cases self; [lia|].
      cbv zeta. by destruct (KDTree_rejects _).
    + rewrite Hreg. apply lookup_insert_eq.
    + intros Hfresh.
      assert (size (simulated_drones (fst (add_simulated_drone self drone))) = N)
        as Hsize by (rewrite Hreg, map_size_insert_None by done; lia).
      split; [done|]. intros next. apply Hfull; [|done].
      by rewrite add_keeps_max.
Qed.

End Capacity.

(** ** Validation: candidates, frame, repeated calls *)

Section ValidationClaims.
Context {rt : Runtime}.
Import DeconflictionSystem.


(** C10: a validation changes nothing of the engine but the conflict cache:
    registry (and with it every registered mission), time index, spatial
    index, safety buffer and capacity limit are the same afterwards; the
    cache keeps all its entries, and the keys it gains belong to pairs of the
    primary with a candidate.  The primary is a value the call only reads. *)
Theorem validate_changes_only_the_cache
    (self : t) (primary_drone : Drone.t) (now_enter now_exit : Z) :
  let self' := fst (validate_mission self primary_drone now_enter now_exit) in
  simulated_drones self' = simulated_drones self
  /\ time_index self' = time_index self
  /\ spatial_index self' = spatial_index self
  /\ safety_buffer self' = safety_buffer self
  /\ max_simulated_drones self' = max_simulated_drones self
  /\ conflict_cache self ⊆ conflict_cache self'
  /\ (forall key,
        is_Some (conflict_cache self' !! key) ->
        is_Some (conflict_cache self !! key)
        \/ exists drone_id sim,
             drone_id ∈ relevant_drones self primary_drone
             /\ simulated_drones self !! drone_id = Some sim
             /\ (key = temporal_key primary_drone sim
                 \/ key = spatial_key primary_drone sim)).
Proof.
  cbv zeta.
  destruct (validate_mission_frame self primary_drone now_enter now_exit)
    as (?&?&?&?&?&?).
  repeat (split; [done|]).
  rewrite validate_mission_unfold. apply validate_loop_new_key.
Qed.

End ValidationClaims.

(** ** Evaluations on the sample missions *)

Section Samples.
Import DeconflictionSystem.
Existing Instance sample_runtime.

(** C2 (the code departs from the claim): validating [primary_a] twice
    against the same registry gives the same status and the same conflicts,
    and the second call finds both answers in the cache; yet [cache_hits] is
    0 in the first result and 0 in the second, not greater. *)
Theorem second_validation_reports_no_cache_hit :
  let first := validate_mission engine_with_peer primary_a 100 101 in
  let second := validate_mission (fst first) primary_a 200 201 in
  conflict_cache engine_with_peer !! temporal_key primary_a peer = None
  /\ is_Some (conflict_cache (fst first) !! temporal_key primary_a peer)
  /\ is_Some (conflict_cache (fst first) !! spatial_key primary_a peer)
  /\ reported status (snd first) = Some "conflict"
  /\ reported status (snd second) = Some "conflict"
  /\ reported conflicts (snd second) = reported conflicts (snd first)
  /\ reported (fun r => cache_hits (performance r)) (snd first) = Some 0
  /\ reported (fun r => cache_hits (performance r)) (snd second) = Some 0.
Proof. cbv zeta. repeat split; vm_compute; eauto. Qed.

(** C8 (the code departs from the claim): with the clock reading 100 on
    entry and 101 on exit, the call lasted 1; the reported duration is
    [101 - start_time] of the mission, 101 for a mission starting at 0 and 98
    for the same mission starting at 3. *)
Theorem validation_time_depends_on_mission_start :
  reported (fun r => validation_time (performance r))
    (snd (validate_mission fresh_engine primary_a 100 101)) = Some (Some 101%Z)
  /\ reported (fun r => validation_time (performance r))
       (snd (validate_mission fresh_engine primary_late 100 101))
     = Some (Some 98%Z)
  /\ (101 - 100 = 1)%Z.
Proof. repeat split; vm_compute; reflexivity. Qed.

(** A cached answer outlives the mission it was computed for: after
    [primary_a] has been validated, another mission with the same id, far
    from the peer and with a window that only touches the peer's, is reported
    in conflict at [primary_a]'s waypoint. *)
Example stale_cache_entry :
  time_ranges_overlap primary_b peer = false
  /\ scan_waypoints engine_after_validation primary_b peer = inr []
  /\ snd (_check_temporal_conflict engine_after_validation primary_b peer)
     = CBool true
  /\ snd (_check_spatial_conflict engine_after_validation primary_b peer)
     = inr (CPoints [conflict_at peer (origin 0)])
  /\ reported status
       (snd (validate_mission engine_after_validation primary_b 300 301))
     = Some "conflict".
Proof. repeat split; vm_compute; reflexivity. Qed.

End Samples.

(** ** Registration under an id that is already registered *)

Section Duplicates.
Context {rt : Runtime}.
Import DeconflictionSystem.

(** C3 (as the code has it): registering a mission whose id is already a
    key of the registry raises no duplicate-id error.  Below capacity the
    call replaces the registry entry of that id by the new mission (the
    registry size stays the same), leaves the cache as it is and, when it
    returns normally, has appended the id once more to the buckets of the
    mission's start and end times; the only exception it can raise is the
    tree constructor's.  At capacity it raises the capacity error and leaves
    the engine unchanged. *)
Theorem duplicate_id_is_overwritten (self : t) (drone : Drone.t) :
  is_Some (simulated_drones self !! Drone.id drone) ->
  let attempt := add_simulated_drone self drone in
  ((Z.of_nat (size (simulated_drones self)) < max_simulated_drones self)%Z ->
   snd attempt
   = (if KDTree_rejects (rebuilt_points self drone)
      then Some LibraryError else None)
   /\ simulated_drones (fst attempt)
      = <[Drone.id drone := drone]> (simulated_drones self)
   /\ size (simulated_drones (fst attempt)) = size (simulated_drones self)
   /\ conflict_cache (fst attempt) = conflict_cache self
   /\ (snd attempt = None ->
       time_index (fst attempt)
       = bucket_append (Drone.end_time drone) (Drone.id drone)
           (bucket_append (Drone.start_time drone) (Drone.id drone)
              (time_index self))))
  /\ ((max_simulated_drones self <= Z.of_nat (size (simulated_drones self)))%Z ->
      attempt = (self, Some (capacity_exceeded self))).
Proof.
  intros Hdup. cbv zeta. rewrite add_simulated_drone_unfold.
  capacity_cases self.
  - split; [lia|done].
  - split; [intros _|lia]. cbv zeta.
    destruct (KDTree_rejects _); simpl;
      repeat split; try done; by apply map_size_insert_Some.
Qed.

End Duplicates.

Section Witnesses.
Import DeconflictionSystem.

(** C3, refuted as stated: "s" is registered, registering [peer_later]
    under the same id returns normally, the registry now maps "s" to
    [peer_later], and the time index has two more buckets. *)
Lemma duplicate_id_is_not_rejected :
  simulated_drones engine_with_peer !! Drone.id peer_later = Some peer
  /\ snd (add_simulated_drone (rt := sample_runtime) engine_with_peer peer_later)
     = None
  /\ simulated_drones
       (fst (add_simulated_drone (rt := sample_runtime) engine_with_peer peer_later))
     !! Drone.id peer_later = Some peer_later
  /\ time_index engine_with_peer = [(5%Z, ["s"]); (15%Z, ["s"])]
  /\ time_index
       (fst (add_simulated_drone (rt := sample_runtime) engine_with_peer peer_later))
     = [(5%Z, ["s"]); (15%Z, ["s"]); (20%Z, ["s"]); (30%Z, ["s"])].
Proof. repeat split; vm_compute; reflexivity. Qed.

Lemma duplicate_id_is_overwritten_witness :
  is_Some (simulated_drones engine_with_peer !! Drone.id peer_later)
  /\ (Z.of_nat (size (simulated_drones engine_with_peer))
      < max_simulated_drones engine_with_peer)%Z
  /\ simulated_drones
       (fst (add_simulated_drone (rt := sample_runtime) engine_with_peer peer_later))
     = <[Drone.id peer_later := peer_later]> (simulated_drones engine_with_peer).
Proof.
  assert (is_Some (simulated_drones engine_with_peer !! Drone.id peer_later))
    as Hdup by (vm_compute; eauto).
  assert (Z.of_nat (size (simulated_drones engine_with_peer))
          < max_simulated_drones engine_with_peer)%Z as Hlt
    by (vm_compute; reflexivity).
  split; [exact Hdup|]. split; [exact Hlt|].
  apply (duplicate_id_is_overwritten (rt := sample_runtime)
           engine_with_peer peer_later Hdup).
  exact Hlt.
Defined.

Lemma time_ranges_overlap_shared_instant_witness :
  (Drone.start_time primary_a < Drone.end_time primary_a)%Z
  /\ (Drone.start_time peer < Drone.end_time peer)%Z
  /\ (time_ranges_overlap primary_a peer = true
      <-> exists t : Z,
            (Drone.start_time primary_a <= t < Drone.end_time primary_a
             /\ Drone.start_time peer <= t < Drone.end_time peer)%Z).
Proof.
  assert (Drone.start_time primary_a < Drone.end_time primary_a)%Z as Ha
    by (vm_compute; reflexivity).
  assert (Drone.start_time peer < Drone.end_time peer)%Z as Hb
    by (vm_compute; reflexivity).
  split; [exact Ha|]. split; [exact Hb|].
  exact (time_ranges_overlap_shared_instant primary_a peer Ha Hb).
Defined.

Lemma capacity_error_exactly_when_full_witness :
  S (size (simulated_drones
             (run (rt := sample_runtime) [] (__init__ 10 (Z.of_nat 1))))) = 1
  /\ simulated_drones
       (fst (add_simulated_drone (rt := sample_runtime)
               (run (rt := sample_runtime) [] (__init__ 10 (Z.of_nat 1))) peer))
     !! Drone.id peer = Some peer.
Proof.
  assert (S (size (simulated_drones
                     (run (rt := sample_runtime) [] (__init__ 10 (Z.of_nat 1)))))
          = 1) as Hsize by (vm_compute; reflexivity).
  split; [exact Hsize|].
  apply (capacity_error_exactly_when_full (rt := sample_runtime) [] 10 1 peer).
  exact Hsize.
Defined.

Lemma spatial_test_is_full_cross_product_witness :
  computed_distance (H := sample_runtime) (origin 0) (Waypoint.mk 10 0 0 0)
  = inr (double_of (Runtime := sample_runtime) (safety_buffer fresh_engine))
  /\ _check_point_conflict (rt := sample_runtime)
       fresh_engine (origin 0) (Waypoint.mk 10 0 0 0) = inr false.
Proof.
  assert (computed_distance (H := sample_runtime) (origin 0) (Waypoint.mk 10 0 0 0)
          = inr (double_of (Runtime := sample_runtime)
                   (safety_buffer fresh_engine))) as Htie
    by (vm_compute; reflexivity).
  split; [exact Htie|].
  apply (spatial_test_is_full_cross_product (rt := sample_runtime)
           fresh_engine primary_a peer).
  exact Htie.
Defined.

(** C5, refuted as stated, on IEEE doubles.  With buffer [2 ** 0.5] the
    waypoints (0, 0, 0) and (1, 1, 0) are at a distance below the buffer,
    yet the computed distance is the buffer itself and the test answers
    False.  With buffer 3.7 the waypoints (0.7, 0, 0) and (4.2, 1.2, 0) are
    at a distance not below the buffer, yet the test answers True.  With a
    coordinate 2^600 the square is out of range: the test, the scan and the
    validation raise [OverflowError]. *)
Lemma point_test_is_not_the_real_distance_test :
  (_check_point_conflict (rt := sample_runtime) engine_root2 (origin 0) unit_corner
   = inr false
   /\ (distance (origin 0) unit_corner < Q2R (safety_buffer engine_root2))%R)
  /\ (_check_point_conflict (rt := sample_runtime) engine_3_7 near_a near_b
      = inr true
      /\ ~ (distance near_a near_b < Q2R (safety_buffer engine_3_7))%R)
  /\ _check_point_conflict (rt := sample_runtime) fresh_engine far_out (origin 5)
     = inl OverflowError
  /\ scan_waypoints (rt := sample_runtime) fresh_engine primary_far peer
     = inl OverflowError
  /\ snd (validate_mission (rt := sample_runtime)
            engine_with_peer primary_far 100 101)
     = inl OverflowError.
Proof.
  split; [split|split; [split|]].
  - vm_compute; reflexivity.
  - apply really_closer_spec. vm_compute; reflexivity.
  - vm_compute; reflexivity.
  - intros H. apply really_closer_spec in H. vm_compute in H. discriminate.
  - repeat split; vm_compute; reflexivity.
Qed.

End Witnesses.


(** ** Cache keys *)

Section Keys.
Import DeconflictionSystem.

Lemma temporal_key_not_spatial (a b c d : Drone.t) :
  temporal_key a b <> spatial_key c d.
Proof.
  intros H. apply (f_equal (String.get 0)) in H.
  unfold temporal_key, spatial_key in H. cbv in H. discriminate.
Qed.

Lemma temporal_key_same_primary (p a b : Drone.t) :
  temporal_key p a = temporal_key p b -> Drone.id a = Drone.id b.
Proof.
  unfold temporal_key. intros H. by do 3 apply String.app_inj in H.
Qed.

Lemma spatial_key_same_primary (p a b : Drone.t) :
  spatial_key p a = spatial_key p b -> Drone.id a = Drone.id b.
Proof.
  unfold spatial_key. intros H. by do 3 apply String.app_inj in H.
Qed.

(** X4: a temporal key never equals a spatial key, and for one primary
    mission the keys of two candidates coincide only when the candidates
    have the same id; across primaries keys do collide, as for the pairs
    ("a_b", "c") and ("a", "b_c"). *)
Theorem cache_keys_separate (p a b c d : Drone.t) :
  temporal_key a b <> spatial_key c d
  /\ (temporal_key p a = temporal_key p b <-> Drone.id a = Drone.id b)
  /\ (spatial_key p a = spatial_key p b <-> Drone.id a = Drone.id b)
  /\ temporal_key (Drone.mk "a_b" [] 0 0) (Drone.mk "c" [] 0 0)
     = temporal_key (Drone.mk "a" [] 0 0) (Drone.mk "b_c" [] 0 0).
Proof.
  split; [apply temporal_key_not_spatial|].
  split; [split; [apply temporal_key_same_primary|]|].
  { unfold temporal_key. by intros ->. }
  split; [split; [apply spatial_key_same_primary|]|reflexivity].
  unfold spatial_key. by intros ->.
Qed.

End Keys.

(** ** The point test and the scan at their edges *)

Section PointTest.
Context {rt : Runtime}.
Import DeconflictionSystem.



(** X6: the scan returns the empty list when either mission has no
    waypoint.  When it returns, it never returns more points than there are
    waypoint pairs, and every point it returns names the simulated drone,
    has type "spatial" and severity "high", and sits at a waypoint of the
    primary mission; the only exception it raises is [OverflowError]. *)
Theorem scan_edges_and_bounds (self : t) (p s : Drone.t) :
  (Drone.waypoints p = [] \/ Drone.waypoints s = [] ->
   scan_waypoints self p s = inr [])
  /\ match scan_waypoints self p s with
     | inl raised => raised = OverflowError
     | inr conflicts =>
         length conflicts
         <= length (Drone.waypoints p) * length (Drone.waypoints s)
         /\ (forall c, c ∈ conflicts ->
               ConflictPoint.drone_id c = Drone.id s
               /\ ConflictPoint.type c = "spatial"
               /\ ConflictPoint.severity c = "high"
               /\ ConflictPoint.point c ∈ get_trajectory p)
     end.
Proof.
  rewrite scan_waypoints_spec. unfold proximity_conflicts. split.
  - intros [Hp|Hs].
    + by rewrite Hp.
    + rewrite Hs. by induction (Drone.waypoints p).
  - destruct (forallb _ _); [|done]. split.
    + rewrite length_map, <- length_prod. apply filter_length_le.
    + intros c [[wp1 wp2] [-> Hin]]%list_elem_of_fmap. repeat split.
      apply list_elem_of_In, filter_In in Hin as [Hin _].
      apply in_prod_iff in Hin as [Hin _]. apply list_elem_of_In in Hin.
      unfold get_trajectory. simpl.
      by apply (list_elem_of_fmap_2
                  (fun wp => (Waypoint.x wp, Waypoint.y wp, Waypoint.z wp))).
Qed.

End PointTest.

(** ** [Drone.validate_trajectory] *)

Section Trajectory.

Lemma out_of_order_false (wps : list Waypoint.t) (i : nat) :
  out_of_order wps i = false
  <-> forall a b, wps !! i = Some a -> wps !! S i = Some b ->
                  (Waypoint.timestamp a <= Waypoint.timestamp b)%Z.
Proof.
  unfold out_of_order.
  destruct (wps !! i) as [a|], (wps !! S i) as [b|]; try (split; [done|done]).
  split.
  - intros H a' b' [= <-] [= <-]. lia.
  - intros H. specialize (H a b eq_refl eq_refl). lia.
Qed.

Lemma adjacent_order_is_global (wps : list Waypoint.t) :
  (forall i a b, wps !! i = Some a -> wps !! S i = Some b ->
                 (Waypoint.timestamp a <= Waypoint.timestamp b)%Z) ->
  forall i j a b, i <= j -> wps !! i = Some a -> wps !! j = Some b ->
                  (Waypoint.timestamp a <= Waypoint.timestamp b)%Z.
Proof.
  intros Hadj i j. induction j as [|j IH]; intros a b Hij Ha Hb.
  - assert (i = 0) as -> by lia. rewrite Ha in Hb. injection Hb as ->. lia.
  - destruct (decide (i = S j)) as [->|Hne].
    + rewrite Ha in Hb. injection Hb as ->. lia.
    + destruct (lookup_lt_is_Some_2 wps j) as [c Hc].
      { apply lookup_lt_Some in Hb. lia. }
      etrans; [apply (IH a c); [lia|done|done]|by eapply Hadj].
Qed.

(** X7: [validate_trajectory] answers [True] exactly when the timestamps of
    the waypoints never decrease along the list (any earlier waypoint is no
    later than any later one) and [end_time] is after [start_time]; a
    mission without waypoints passes the first test. *)
Theorem validate_trajectory_spec (self : Drone.t) :
  validate_trajectory self = true
  <-> (forall i j a b,
         i <= j ->
         Drone.waypoints self !! i = Some a ->
         Drone.waypoints self !! j = Some b ->
         (Waypoint.timestamp a <= Waypoint.timestamp b)%Z)
      /\ (Drone.start_time self < Drone.end_time self)%Z.
Proof.
  unfold validate_trajectory. set (wps := Drone.waypoints self).
  destruct (existsb _ _) eqn:Hex.
  - split; [done|]. intros [Hsorted _].
    apply existsb_exists in Hex as (i & _ & Hi).
    apply not_false_iff_true in Hi. destruct Hi. apply out_of_order_false.
    intros a b Ha Hb. apply (Hsorted i (S i)); [lia|done|done].
  - assert (forall i a b, wps !! i = Some a -> wps !! S i = Some b ->
                          (Waypoint.timestamp a <= Waypoint.timestamp b)%Z)
      as Hadj.
    { intros i a b Ha Hb. revert a b Ha Hb. apply out_of_order_false.
      apply not_true_is_false. intros Hi.
      apply not_true_iff_false in Hex. apply Hex, existsb_exists.
      exists i. split; [|done]. apply in_seq.
      destruct (wps !! S i) as [b|] eqn:Hb.
      - apply lookup_lt_Some in Hb. lia.
      - unfold out_of_order in Hi. rewrite Hb in Hi.
        by destruct (wps !! i). }
    cbv zeta. destruct (Z.leb_spec (Drone.end_time self - Drone.start_time self) 0).
    + split; [done|]. intros [_ ?]. lia.
    + split; [|done]. intros _. split; [|lia].
      by apply adjacent_order_is_global.
Qed.

End Trajectory.

(** ** What a history of calls keeps *)

Section Histories.
Context {rt : Runtime}.
Import DeconflictionSystem.

Lemma bucket_append_has (time : Z) (drone_id : string)
    (index : list (Z * list string)) :
  exists bucket,
    (time, bucket) ∈ bucket_append time drone_id index /\ drone_id ∈ bucket.
Proof.
  induction index as [|[t0 b0] index (b & Hin & Hb)]; simpl.
  - exists [drone_id]. split; apply list_elem_of_here.
  - destruct (decide (t0 = time)) as [->|Hne].
    + exists (b0 ++ [drone_id]). split; [apply list_elem_of_here|].
      apply elem_of_app. right. apply list_elem_of_here.
    + exists b. split; [by apply list_elem_of_further|done].
Qed.

Lemma bucket_append_keeps (time : Z) (drone_id : string)
    (index : list (Z * list string)) (time' : Z) (bucket : list string) :
  (time', bucket) ∈ index ->
  exists bucket',
    (time', bucket') ∈ bucket_append time drone_id index
    /\ forall other, other ∈ bucket -> other ∈ bucket'.
Proof.
  induction index as [|[t0 b0] index IH]; simpl.
  - intros H. by apply elem_of_nil in H.
  - intros [[= -> ->]|Hin]%elem_of_cons.
    + destruct (decide (t0 = time)) as [->|Hne].
      * exists (b0 ++ [drone_id]). split; [apply list_elem_of_here|].
        intros other Ho. apply elem_of_app. by left.
      * exists b0. split; [apply list_elem_of_here|done].
    + destruct (decide (t0 = time)) as [->|Hne].
      * exists bucket. split; [by apply list_elem_of_further|done].
      * destruct (IH Hin) as (b' & Hin' & Hsub).
        exists b'. split; [by apply list_elem_of_further|done].
Qed.

Lemma bucket_append_keys (time : Z) (drone_id : string)
    (index : list (Z * list string)) :
  map fst (bucket_append time drone_id index)
  = if decide (time ∈ map fst index) then map fst index
    else map fst index ++ [time].
Proof.
  induction index as [|[t0 b0] index IH]; simpl.
  - destruct (decide (time ∈ [])) as [H|_]; [by apply elem_of_nil in H|done].
  - destruct (decide (t0 = time)) as [->|Hne]; simpl.
    + destruct (decide (time ∈ time :: map fst index)) as [_|H]; [done|].
      destruct H. apply list_elem_of_here.
    + rewrite IH. destruct (decide (time ∈ map fst index)) as [Hin|Hnin].
      * destruct (decide (time ∈ t0 :: map fst index)) as [_|H]; [done|].
        destruct H. by apply list_elem_of_further.
      * destruct (decide (time ∈ t0 :: map fst index)) as [H|_]; [|done].
        apply elem_of_cons in H as [?|?]; congruence.
Qed.

Lemma bucket_append_NoDup (time : Z) (drone_id : string)
    (index : list (Z * list string)) :
  NoDup (map fst index) -> NoDup (map fst (bucket_append time drone_id index)).
Proof.
  intros Hnd. rewrite bucket_append_keys.
  destruct (decide (time ∈ map fst index)); [done|].
  apply NoDup_app. split; [done|]. split; [|apply NoDup_singleton].
  intros x Hx ->%list_elem_of_singleton. done.
Qed.

Lemma index_has_append_new (self : t) (time : Z) (drone_id : string) :
  index_has (set_time_index self (bucket_append time drone_id (time_index self)))
    time drone_id.
Proof. apply bucket_append_has. Qed.

Lemma index_has_append_old (self : t) (time : Z) (drone_id : string)
    (time' : Z) (other : string) :
  index_has self time' other ->
  index_has (set_time_index self (bucket_append time drone_id (time_index self)))
    time' other.
Proof.
  intros (b & Hin & Hb).
  destruct (bucket_append_keeps time drone_id _ _ _ Hin) as (b' & Hin' & Hsub).
  exists b'. split; [done|by apply Hsub].
Qed.

Lemma never_shrinks_refl (self : t) : never_shrinks self self.
Proof.
  repeat split; try done. intros data ->. exists []. by rewrite app_nil_r.
Qed.

Lemma never_shrinks_trans (s1 s2 s3 : t) :
  never_shrinks s1 s2 -> never_shrinks s2 s3 -> never_shrinks s1 s3.
Proof.
  intros (Hb1&Hm1&Hr1&Hi1&Hc1&Hs1) (Hb2&Hm2&Hr2&Hi2&Hc2&Hs2).
  repeat split; try congruence; [auto|auto|by etrans|].
  intros data Hd. destruct (Hs1 _ Hd) as (m1 & H1).
  destruct (Hs2 _ H1) as (m2 & H2). exists (m1 ++ m2). by rewrite app_assoc.
Qed.

Lemma add_never_shrinks (self : t) (drone : Drone.t) :
  never_shrinks self (fst (add_simulated_drone self drone)).
Proof.
  rewrite add_simulated_drone_unfold.
  destruct (_ >=? _)%Z; [apply never_shrinks_refl|]. cbv zeta.
  assert (forall key, is_Some (simulated_drones self !! key) ->
            is_Some (<[Drone.id drone := drone]> (simulated_drones self) !! key))
    as Hreg.
  { intros key Hk. destruct (decide (Drone.id drone = key)) as [->|Hne].
    - rewrite lookup_insert_eq. eauto.
    - by rewrite lookup_insert_ne. }
  destruct (KDTree_rejects _); simpl; unfold never_shrinks; simpl.
  - split_and!; try done. intros data ->. exists []. by rewrite app_nil_r.
  - split_and!; try done.
    + intros time i Hi.
      apply (index_has_append_old
               (set_time_index self
                  (bucket_append (Drone.start_time drone) (Drone.id drone)
                     (time_index self)))).
      by apply index_has_append_old.
    + intros data Hd. unfold rebuilt_points. rewrite Hd. eauto.
Qed.

Lemma validate_never_shrinks (self : t) (p : Drone.t) (t0 t1 : Z) :
  never_shrinks self (fst (validate_mission self p t0 t1)).
Proof.
  destruct (validate_mission_frame self p t0 t1) as (Hb&Hm&Hr&Hs&Hi&Hc).
  repeat split; try done.
  - intros key. by rewrite Hr.
  - intros time i. unfold index_has. by rewrite Hi.
  - intros data Hd. exists []. by rewrite app_nil_r, Hs.
Qed.

Lemma run_never_shrinks (calls : list call) (self : t) :
  never_shrinks self (run calls self).
Proof.
  revert self. induction calls as [|c calls IH]; intros self.
  - apply never_shrinks_refl.
  - eapply never_shrinks_trans; [|apply (IH (perform self c))].
    destruct c; simpl; [apply add_never_shrinks|apply validate_never_shrinks].
Qed.

(** X8: no history of calls takes anything out of the engine: an id that is
    registered stays registered, an id listed under an instant of the time
    index stays listed there, every cache entry stays as it is, the index
    data is only extended at its end, and the safety buffer and the capacity
    limit keep their values. *)
Theorem history_never_removes (calls : list call) (self : t) :
  safety_buffer (run calls self) = safety_buffer self
  /\ max_simulated_drones (run calls self) = max_simulated_drones self
  /\ (forall key,
        is_Some (simulated_drones self !! key) ->
        is_Some (simulated_drones (run calls self) !! key))
  /\ (forall time bucket drone_id,
        (time, bucket) ∈ time_index self -> drone_id ∈ bucket ->
        exists bucket',
          (time, bucket') ∈ time_index (run calls self) /\ drone_id ∈ bucket')
  /\ (forall key v,
        conflict_cache self !! key = Some v ->
        conflict_cache (run calls self) !! key = Some v)
  /\ (forall data,
        spatial_index self = Some data ->
        exists more, spatial_index (run calls self) = Some (data ++ more)).
Proof.
  destruct (run_never_shrinks calls self) as (Hb&Hm&Hr&Hi&Hc&Hs).
  repeat split; try done.
  - intros time bucket i Hin Hb'. apply Hi. by exists bucket.
  - intros key v Hk. by eapply lookup_weaken.
Qed.

End Histories.

(** ** Where the contents of the engine come from *)

Section Provenance.
Context {rt : Runtime}.
Import DeconflictionSystem.

Lemma bucket_append_elem_time (time : Z) (drone_id : string)
    (index : list (Z * list string)) (time' : Z) (bucket : list string)
    (other : string) :
  (time', bucket) ∈ bucket_append time drone_id index ->
  other ∈ bucket ->
  (time' = time /\ other = drone_id)
  \/ exists bucket0, (time', bucket0) ∈ index /\ other ∈ bucket0.
Proof.
  induction index as [|[t0 b0] index IH]; simpl.
  - intros [= -> ->]%list_elem_of_singleton Hin.
    left. by apply list_elem_of_singleton in Hin.
  - destruct (decide (t0 = time)) as [->|Hne].
    + intros [[= -> ->]|Hin]%elem_of_cons Hb.
      * apply elem_of_app in Hb as [Hb|Hb].
        -- right. exists b0. split; [apply list_elem_of_here|done].
        -- left. by apply list_elem_of_singleton in Hb.
      * right. exists bucket. split; [by apply list_elem_of_further|done].
    + intros [[= -> ->]|Hin]%elem_of_cons Hb.
      * right. exists b0. split; [apply list_elem_of_here|done].
      * destruct (IH Hin Hb) as [?|(b & ? & ?)]; [by left|].
        right. exists b. split; [by apply list_elem_of_further|done].
Qed.

Lemma made_from_mono (drones drones' : list Drone.t) (self : t) :
  (forall d, d ∈ drones -> d ∈ drones') ->
  made_from drones self -> made_from drones' self.
Proof.
  intros Hsub (Hreg & Hidx & Hnd & Hsp). split_and!; [| |done|].
  - intros key d Hd. destruct (Hreg _ _ Hd). auto.
  - intros time b i Hin Hi. destruct (Hidx _ _ _ Hin Hi) as (d & ? & ?).
    exists d. auto.
  - intros data pt Hd Hpt. destruct (Hsp _ _ Hd Hpt) as (d & ? & ?).
    exists d. auto.
Qed.

Lemma add_made_from (drones : list Drone.t) (self : t) (drone : Drone.t) :
  made_from drones self ->
  made_from (drones ++ [drone]) (fst (add_simulated_drone self drone)).
Proof.
  intros Hinv.
  assert (made_from (drones ++ [drone]) self) as (Hreg & Hidx & Hnd & Hsp).
  { eapply made_from_mono; [|exact Hinv]. intros d Hd. apply elem_of_app. by left. }
  assert (drone ∈ drones ++ [drone]) as Hnew.
  { apply elem_of_app. right. apply list_elem_of_here. }
  rewrite add_simulated_drone_unfold.
  destruct (_ >=? _)%Z; [by split_and!|]. cbv zeta.
  assert (forall key d,
            <[Drone.id drone := drone]> (simulated_drones self) !! key = Some d ->
            Drone.id d = key /\ d ∈ drones ++ [drone]) as Hreg'.
  { intros key d. destruct (decide (Drone.id drone = key)) as [<-|Hne].
    - rewrite lookup_insert_eq. by intros [= <-].
    - rewrite lookup_insert_ne by done. apply Hreg. }
  destruct (KDTree_rejects _); unfold made_from; simpl; [by split_and!|].
  split_and!; [done| |by do 2 apply bucket_append_NoDup|].
  - intros time b i Hin Hi.
    destruct (bucket_append_elem_time _ _ _ _ _ _ Hin Hi)
      as [[-> ->]|(b1 & Hin1 & Hi1)]; [by exists drone; auto|].
    destruct (bucket_append_elem_time _ _ _ _ _ _ Hin1 Hi1)
      as [[-> ->]|(b2 & Hin2 & Hi2)]; [by exists drone; auto|].
    by eapply Hidx.
  - intros data pt [= <-] Hpt. unfold rebuilt_points in Hpt.
    destruct (spatial_index self) as [old|] eqn:Hold.
    + apply elem_of_app in Hpt as [Hpt|Hpt]; [by eapply Hsp|by exists drone].
    + by exists drone.
Qed.

Lemma validate_made_from (drones : list Drone.t) (self : t) (p : Drone.t)
    (t0 t1 : Z) :
  made_from drones self ->
  made_from drones (fst (validate_mission self p t0 t1)).
Proof.
  destruct (validate_mission_frame self p t0 t1) as (_&_&Hr&Hs&Hi&_).
  unfold made_from. by rewrite Hr, Hs, Hi.
Qed.

Lemma run_made_from (calls : list call) (drones : list Drone.t) (self : t) :
  made_from drones self ->
  made_from (drones ++ submitted calls) (run calls self).
Proof.
  revert drones self. induction calls as [|c calls IH]; intros drones self Hinv.
  - simpl. by rewrite app_nil_r.
  - change (run (c :: calls) self) with (run calls (perform self c)).
    destruct c as [drone|p t0 t1]; simpl.
    + rewrite cons_middle, app_assoc. apply IH. by apply add_made_from.
    + apply IH. by apply validate_made_from.
Qed.

Lemma init_made_from (buffer : Q) (max : Z) : made_from [] (__init__ buffer max).
Proof.
  unfold made_from; simpl. split_and!; [|by intros ??? H%elem_of_nil
                                          |apply NoDup_nil_2|done].
  intros key d. by rewrite lookup_empty.
Qed.

(** X9: after any history of calls on a fresh engine, the registry files
    every mission under its own id and holds only missions that were
    submitted for registration; every id in a bucket of the time index is
    the id of a submitted mission, listed under that mission's start or end
    time; the index has one bucket per instant; and every point of the index
    data is a waypoint of a submitted mission. *)
Theorem engine_contents_come_from_registrations
    (calls : list call) (buffer : Q) (max : Z) :
  let self := run calls (__init__ buffer max) in
  (forall key drone,
     simulated_drones self !! key = Some drone ->
     Drone.id drone = key /\ drone ∈ submitted calls)
  /\ (forall time bucket drone_id,
        (time, bucket) ∈ time_index self -> drone_id ∈ bucket ->
        exists drone,
          drone ∈ submitted calls /\ Drone.id drone = drone_id
          /\ (time = Drone.start_time drone \/ time = Drone.end_time drone))
  /\ NoDup (map fst (time_index self))
  /\ (forall data point,
        spatial_index self = Some data -> point ∈ data ->
        exists drone, drone ∈ submitted calls /\ point ∈ get_trajectory drone).
Proof.
  exact (run_made_from calls [] _ (init_made_from buffer max)).
Qed.

(** X10: once a registration has returned normally, every later validation
    of a primary mission whose window contains the start time or the end
    time of the registered mission has that mission among its candidates,
    whatever calls came in between. *)
Theorem registered_boundary_makes_candidate
    (self : t) (drone : Drone.t) (calls : list call) (primary_drone : Drone.t) :
  snd (add_simulated_drone self drone) = None ->
  (Drone.start_time primary_drone <= Drone.start_time drone
   <= Drone.end_time primary_drone
   \/ Drone.start_time primary_drone <= Drone.end_time drone
      <= Drone.end_time primary_drone)%Z ->
  Drone.id drone
  ∈ relevant_drones (run calls (fst (add_simulated_drone self drone)))
      primary_drone.
Proof.
  intros Hok Hwin.
  assert (index_has (fst (add_simulated_drone self drone))
            (Drone.start_time drone) (Drone.id drone)
          /\ index_has (fst (add_simulated_drone self drone))
               (Drone.end_time drone) (Drone.id drone)) as [Hs He].
  { revert Hok. rewrite add_simulated_drone_unfold.
    destruct (_ >=? _)%Z; [done|]. cbv zeta.
    destruct (KDTree_rejects _); [done|]. intros _. simpl. split.
    - destruct (bucket_append_has (Drone.start_time drone) (Drone.id drone)
                  (time_index self)) as (b & Hin & Hb).
      destruct (bucket_append_keeps (Drone.end_time drone) (Drone.id drone)
                  _ _ _ Hin) as (b' & Hin' & Hsub).
      exists b'. split; [done|by apply Hsub].
    - apply bucket_append_has. }
  destruct (run_never_shrinks calls (fst (add_simulated_drone self drone)))
    as (_&_&_&Hi&_&_).
  apply relevant_drones_elem.
  destruct Hwin as [Hw|Hw].
  - destruct (Hi _ _ Hs) as (b & Hin & Hb). by exists (Drone.start_time drone), b.
  - destruct (Hi _ _ He) as (b & Hin & Hb). by exists (Drone.end_time drone), b.
Qed.

End Provenance.


(** ** The shape of the results *)

Section Shape.
Context {rt : Runtime}.
Import DeconflictionSystem.

Lemma validate_body_shape (p : Drone.t) (drone_id : string) (self : t)
    (r r' : Results) :
  well_shaped r ->
  snd (validate_body p drone_id self r) = inr r' ->
  well_shaped r'
  /\ (map conflicting_drone (conflicts r') = map conflicting_drone (conflicts r)
      \/ map conflicting_drone (conflicts r')
         = map conflicting_drone (conflicts r) ++ [drone_id]).
Proof.
  intros (Hst & Hlen & Hchk & Hall). rewrite validate_body_unfold.
  destruct (simulated_drones self !! drone_id) as [sim|]; simpl; [|done].
  destruct (truthy (snd (_check_temporal_conflict self p sim)));
    [destruct (snd (_check_spatial_conflict _ p sim)) as [e|v]; [done|];
     destruct (truthy v) eqn:Hsc|]; simpl; intros [= <-];
    unfold well_shaped; simpl.
  - split; [|right; by rewrite map_app].
    split_and!; [right; split; [by destruct (conflicts r)|done] | | lia |].
    + rewrite length_app. simpl. lia.
    + apply Forall_app. split; [done|]. by apply Forall_singleton.
  - split; [|by left]. split_and!; [done|lia|lia|done].
  - split; [|by left]. split_and!; [done|lia|lia|done].
Qed.

Lemma validate_loop_shape (p : Drone.t) (ids : list string) (self : t)
    (r r' : Results) :
  well_shaped r ->
  snd (validate_loop p ids self r) = inr r' ->
  well_shaped r'
  /\ exists names,
       map conflicting_drone (conflicts r')
       = map conflicting_drone (conflicts r) ++ names
       /\ sublist names ids.
Proof.
  revert self r. induction ids as [|drone_id rest IH]; intros self r Hr; simpl.
  - intros [= <-]. split; [done|]. exists []. by rewrite app_nil_r.
  - pose proof (validate_body_shape p drone_id self r) as Hb.
    destruct (validate_body p drone_id self r) as [s [e|r1]]; simpl in *; [done|].
    destruct (Hb r1 Hr eq_refl) as [Hr1 Hnames]. intros Hl.
    destruct (IH _ _ Hr1 Hl) as (Hr' & names & Heq & Hsub). split; [done|].
    destruct Hnames as [H1|H1]; rewrite Heq, H1.
    + exists names. split; [done|by apply sublist_cons].
    + exists (drone_id :: names). split; [by rewrite <- app_assoc|].
      by apply sublist_skip.
Qed.

Lemma initial_results_shape (self : t) : well_shaped (initial_results self).
Proof. unfold well_shaped; simpl. split_and!; [by left|lia|lia|done]. Qed.

Lemma validate_mission_shape (self : t) (p : Drone.t) (t0 t1 : Z) (r : Results) :
  snd (validate_mission self p t0 t1) = inr r ->
  well_shaped r
  /\ sublist (map conflicting_drone (conflicts r)) (relevant_drones self p)
  /\ total_drones (performance r) = size (simulated_drones self).
Proof.
  rewrite validate_mission_unfold. simpl.
  destruct (snd (validate_loop _ _ _ _)) as [e|r0] eqn:Hl; [done|].
  intros [= <-].
  destruct (validate_loop_shape _ _ _ _ _ (initial_results_shape self) Hl)
    as (Hshape & names & Heq & Hsub).
  apply validate_loop_counters in Hl as (_ & _ & Htot & _).
  split; [exact Hshape|]. simpl in *. split; [by rewrite Heq|done].
Qed.

(** X11: in every results dictionary that [validate_mission] returns, the
    status is 'conflict' exactly when there is a conflict entry and 'clear'
    otherwise; there are at most as many entries as spatial checks and at
    most as many spatial checks as temporal checks; every entry carries a
    non-empty (truthy) value of conflict locations; the entries name
    candidates, each at most once and in the order they were examined; and
    [total_drones] is the size of the registry. *)
Theorem validation_results_shape
    (self : t) (primary_drone : Drone.t) (now_enter now_exit : Z) :
  match snd (validate_mission self primary_drone now_enter now_exit) with
  | inl _ => True
  | inr r =>
      ((conflicts r = [] /\ status r = "clear")
       \/ (conflicts r <> [] /\ status r = "conflict"))
      /\ length (conflicts r) <= spatial_checks (performance r)
      /\ spatial_checks (performance r) <= temporal_checks (performance r)
      /\ Forall (fun entry => truthy (conflict_locations entry) = true)
           (conflicts r)
      /\ sublist (map conflicting_drone (conflicts r))
           (relevant_drones self primary_drone)
      /\ NoDup (map conflicting_drone (conflicts r))
      /\ total_drones (performance r) = size (simulated_drones self)
  end.
Proof.
  destruct (snd (validate_mission _ _ _ _)) as [e|r] eqn:Hv; [done|].
  apply validate_mission_shape in Hv as ((?&?&?&?) & Hsub & ?).
  split_and!; try done.
  eapply sublist_NoDup; [apply list_set_NoDup|exact Hsub].
Qed.

End Shape.

(** ** The types of the cached values *)

Section CacheTypes.
Context {rt : Runtime}.
Import DeconflictionSystem.













End CacheTypes.

(** ** Validation at its edges *)

Section Edges.
Context {rt : Runtime}.
Import DeconflictionSystem.





End Edges.


(** ** Validation on a cache that holds nothing for the primary *)

Section ColdCache.
Context {rt : Runtime}.
Import DeconflictionSystem.

Lemma check_point_conflict_buffer (self base : t) (wp1 wp2 : Waypoint.t) :
  safety_buffer self = safety_buffer base ->
  _check_point_conflict self wp1 wp2 = _check_point_conflict base wp1 wp2.
Proof. intros Hb. by rewrite !check_point_conflict_computed, Hb. Qed.

Lemma forallb_pointwise {A : Type} (f g : A -> bool) (l : list A) :
  (forall a, f a = g a) -> forallb f l = forallb g l.
Proof. intros Hfg. induction l as [|a l IH]; simpl; [done|]. by rewrite Hfg, IH. Qed.

Lemma proximity_conflicts_buffer (self base : t) (p s : Drone.t) :
  safety_buffer self = safety_buffer base ->
  proximity_conflicts self p s = proximity_conflicts base p s.
Proof.
  intros Hb. unfold proximity_conflicts. cbv zeta.
  rewrite (forallb_pointwise (test_returns self) (test_returns base)),
          (List.filter_ext (test_true self) (test_true base)); [done| |];
    intros [wp1 wp2]; unfold test_true, test_returns; simpl;
    by rewrite (check_point_conflict_buffer self base).
Qed.

Lemma validate_body_cold (p : Drone.t) (drone_id : string) (self : t)
    (r : Results) (sim : Drone.t) :
  simulated_drones self !! drone_id = Some sim ->
  conflict_cache self !! temporal_key p sim = None ->
  conflict_cache self !! spatial_key p sim = None ->
  snd (validate_body p drone_id self r) = after_candidate self p drone_id sim r.
Proof.
  intros Hsim Ht Hs. rewrite validate_body_unfold, Hsim. cbv zeta.
  unfold after_candidate.
  rewrite check_temporal_result, Ht. simpl.
  destruct (time_ranges_overlap p sim); [|done].
  rewrite check_spatial_result.
  unfold _check_temporal_conflict. rewrite Ht. simpl.
  rewrite lookup_insert_ne by apply temporal_key_not_spatial. rewrite Hs.
  change (scan_waypoints (set_conflict_cache self ?c) p sim)
    with (scan_waypoints self p sim).
  rewrite scan_waypoints_spec.
  by destruct (proximity_conflicts self p sim) as [e|[|c l]].
Qed.

Lemma after_candidate_frame (self base : t) (p : Drone.t) (drone_id : string)
    (sim : Drone.t) (r : Results) :
  safety_buffer self = safety_buffer base ->
  after_candidate self p drone_id sim r = after_candidate base p drone_id sim r.
Proof.
  intros Hb. unfold after_candidate.
  by rewrite (proximity_conflicts_buffer self base).
Qed.

Lemma validate_loop_cold (p : Drone.t) (ids : list string) (base self : t)
    (r : Results) :
  safety_buffer self = safety_buffer base ->
  simulated_drones self = simulated_drones base ->
  NoDup ids ->
  (forall key drone, simulated_drones self !! key = Some drone ->
                     Drone.id drone = key) ->
  (forall drone_id sim,
     drone_id ∈ ids -> simulated_drones self !! drone_id = Some sim ->
     conflict_cache self !! temporal_key p sim = None
     /\ conflict_cache self !! spatial_key p sim = None) ->
  snd (validate_loop p ids self r) = uncached_results base p ids r.
Proof.
  revert self r. induction ids as [|drone_id rest IH];
    intros self r Hbuf Hregs Hnd Hkeyed Hcold; simpl; [done|].
  apply NoDup_cons in Hnd as [Hfresh Hnd]. rewrite <- Hregs.
  destruct (simulated_drones self !! drone_id) as [sim|] eqn:Hsim.
  2:{ by rewrite validate_body_unfold, Hsim. }
  destruct (Hcold _ _ (list_elem_of_here _ _) Hsim) as [Ht Hs].
  pose proof (validate_body_cold p drone_id self r sim Hsim Ht Hs) as Hbody.
  pose proof (validate_body_frame p drone_id self r) as (Hb&_&Hr&_&_&_).
  pose proof (validate_body_new_key p drone_id self r) as Hnew.
  rewrite <- (after_candidate_frame self base) by done.
  destruct (validate_body p drone_id self r) as [s1 out]; simpl in *.
  subst out. destruct (after_candidate self p drone_id sim r) as [e|r1]; [done|].
  apply IH; [congruence|congruence|done|by rewrite Hr|].
  intros i sim' Hi Hsim'. rewrite Hr in Hsim'.
  destruct (Hcold _ _ (list_elem_of_further _ _ _ Hi) Hsim') as [Ht' Hs'].
  assert (Drone.id sim' <> Drone.id sim) as Hne.
  { rewrite (Hkeyed _ _ Hsim), (Hkeyed _ _ Hsim'). by intros ->. }
  split; apply eq_None_not_Some; intros Hsome;
    destruct (Hnew _ Hsome) as [Hold|(sim0 & Hsim0 & Hk)].
  + by rewrite Ht' in Hold; destruct Hold.
  + assert (sim0 = sim) as -> by congruence.
    destruct Hk as [Hk|Hk];
      [by apply temporal_key_same_primary in Hk
      |by apply temporal_key_not_spatial in Hk].
  + by rewrite Hs' in Hold; destruct Hold.
  + assert (sim0 = sim) as -> by congruence.
    destruct Hk as [Hk|Hk];
      [symmetry in Hk; by apply temporal_key_not_spatial in Hk
      |by apply spatial_key_same_primary in Hk].
Qed.

Lemma registrations_keep_cache_empty (drones : list Drone.t) (self : t) :
  conflict_cache self = ∅ ->
  conflict_cache (run (map Register drones) self) = ∅.
Proof.
  revert self. induction drones as [|d drones IH]; intros self Hc; [done|].
  apply IH. simpl. rewrite add_simulated_drone_unfold.
  destruct (_ >=? _)%Z; [done|]. cbv zeta. by destruct (KDTree_rejects _).
Qed.

Lemma registrations_then_validate
    (drones : list Drone.t) (buffer : Q) (max : Z) (p : Drone.t) (t0 t1 : Z) :
  let self := run (map Register drones) (__init__ buffer max) in
  snd (validate_mission self p t0 t1)
  = match uncached_results self p (relevant_drones self p) (initial_results self)
    with
    | inl raised => inl raised
    | inr results => inr (set_validation_time results (t1 - Drone.start_time p))
    end.
Proof.
  cbv zeta. set (self := run (map Register drones) (__init__ buffer max)).
  assert (conflict_cache self = ∅) as Hc
    by by apply registrations_keep_cache_empty.
  destruct (run_made_from (map Register drones) [] _
              (init_made_from buffer max)) as (Hkeyed & _).
  fold self in Hkeyed.
  rewrite validate_mission_unfold. simpl.
  rewrite (validate_loop_cold _ _ self); [done|done|done|apply list_set_NoDup| |].
  - intros key d Hd. by destruct (Hkeyed _ _ Hd).
  - intros i sim _ _. by rewrite Hc, !lookup_empty.
Qed.

(** X16: on an engine that has only registered missions so far, a
    validation does what the algorithm without any cache does: for each
    candidate in turn one temporal check, for each candidate whose window
    overlaps the primary's one spatial check over the full cross product of
    waypoint pairs, and one conflict entry, with all the conflict points and
    the overlap window [(max of the starts, min of the ends)], for each of
    those on which the point test holds for some pair.  It raises when that
    algorithm raises, with the same exception. *)
Theorem first_validation_is_uncached
    (drones : list Drone.t) (buffer : Q) (max : Z)
    (primary_drone : Drone.t) (now_enter now_exit : Z) :
  let self := run (map Register drones) (__init__ buffer max) in
  snd (validate_mission self primary_drone now_enter now_exit)
  = match
      uncached_results self primary_drone (relevant_drones self primary_drone)
        (mkResults "clear" []
           (mkPerformance 0 0 0 (size (simulated_drones self)) None))
    with
    | inl raised => inl raised
    | inr results =>
        inr (set_validation_time results
               (now_exit - Drone.start_time primary_drone))
    end.
Proof. apply registrations_then_validate. Qed.

End ColdCache.

Section FirstValidation.
Context {rt : Runtime}.
Import DeconflictionSystem.





End FirstValidation.

(** ** Looking a registered mission up *)

Section Retrieval.
Context {rt : Runtime}.
Import DeconflictionSystem.

Lemma perform_keeps_mission (self : t) (c : call) (key : string) (d : Drone.t) :
  simulated_drones self !! key = Some d ->
  match c with
  | Register other => Drone.id other <> key
  | Validate _ _ _ => True
  end ->
  simulated_drones (perform self c) !! key = Some d.
Proof.
  intros Hd Hc. destruct c as [other|p t0 t1]; simpl.
  - rewrite add_simulated_drone_unfold.
    destruct (_ >=? _)%Z; [done|]. cbv zeta.
    destruct (KDTree_rejects _); simpl; by rewrite lookup_insert_ne.
  - by destruct (validate_mission_frame self p t0 t1) as (_&_&->&_).
Qed.

(** X18: a mission registered while the registry is below capacity is
    stored under its id at once (even when the tree constructor then
    raises), and stays the mission found under that id through every later
    validation and every later registration of a mission with another id. *)
Theorem registered_mission_stays_retrievable
    (self : t) (drone : Drone.t) (calls : list call) :
  (Z.of_nat (size (simulated_drones self)) < max_simulated_drones self)%Z ->
  Forall (fun c =>
            match c with
            | Register other => Drone.id other <> Drone.id drone
            | Validate _ _ _ => True
            end) calls ->
  simulated_drones (run calls (fst (add_simulated_drone self drone)))
  !! Drone.id drone = Some drone.
Proof.
  intros Hlt Hcalls.
  assert (simulated_drones (fst (add_simulated_drone self drone))
          !! Drone.id drone = Some drone) as Hnow
    by (rewrite add_registry by done; apply lookup_insert_eq).
  revert Hnow. generalize (fst (add_simulated_drone self drone)).
  induction Hcalls as [|c calls Hc _ IH]; intros s Hs; [done|].
  apply IH. by apply perform_keeps_mission.
Qed.

End Retrieval.

Section MoreWitnesses.
Import DeconflictionSystem.

Lemma registered_boundary_makes_candidate_witness :
  snd (add_simulated_drone (rt := sample_runtime) fresh_engine peer) = None
  /\ (Drone.start_time primary_a <= Drone.start_time peer
      <= Drone.end_time primary_a)%Z
  /\ Drone.id peer
     ∈ relevant_drones (rt := sample_runtime)
         (run (rt := sample_runtime) [Validate primary_a 100 101]
            (fst (add_simulated_drone (rt := sample_runtime) fresh_engine peer)))
         primary_a.
Proof.
  assert (snd (add_simulated_drone (rt := sample_runtime) fresh_engine peer)
          = None) as Hok by (vm_compute; reflexivity).
  assert (Drone.start_time primary_a <= Drone.start_time peer
          <= Drone.end_time primary_a)%Z as Hwin by (vm_compute; intuition discriminate).
  split; [exact Hok|]. split; [exact Hwin|].
  apply (registered_boundary_makes_candidate (rt := sample_runtime)
           fresh_engine peer [Validate primary_a 100 101] primary_a Hok).
  left. exact Hwin.
Defined.


Lemma registered_mission_stays_retrievable_witness :
  (Z.of_nat (size (simulated_drones fresh_engine))
   < max_simulated_drones fresh_engine)%Z
  /\ Forall (fun c =>
               match c with
               | Register other => Drone.id other <> Drone.id peer
               | Validate _ _ _ => True
               end)
       [Register primary_a; Validate primary_a 100 101]
  /\ simulated_drones
       (run (rt := sample_runtime)
          [Register primary_a; Validate primary_a 100 101]
          (fst (add_simulated_drone (rt := sample_runtime) fresh_engine peer)))
     !! Drone.id peer = Some peer.
Proof.
  assert (Z.of_nat (size (simulated_drones fresh_engine))
          < max_simulated_drones fresh_engine)%Z as Hlt
    by (vm_compute; reflexivity).
  assert (Forall (fun c =>
                    match c with
                    | Register other => Drone.id other <> Drone.id peer
                    | Validate _ _ _ => True
                    end)
            [Register primary_a; Validate primary_a 100 101]) as Hcalls
    by (repeat constructor; simpl; discriminate).
  split; [exact Hlt|]. split; [exact Hcalls|].
  exact (registered_mission_stays_retrievable (rt := sample_runtime)
           fresh_engine peer _ Hlt Hcalls).
Defined.


End MoreWitnesses.
